(** * crypto-lens: token discovery, storage, eviction and sentiment scoring

    A shallow embedding of the pipeline code of the repository
    (src/wom/new_pairs_tracker.py, src/wom/main.py, src/crypto_lens/main.py,
    src/crypto_lens/twitter_analysis.py, src/crypto_lens/twitter_sentiment.py)
    and the properties of it that the specification states.

    Conventions of the embedding:
    - a Python [str] is a [string]; [len] is [String.length];
    - a JSON / Python number is an exact rational ([Q]) or an integer ([Z]);
      the rounding and the comparisons of the code are done on the exact
      value;
    - a value that may be [None] is an [option];
    - a Python exception is a constructor of [exn]; code that may raise
      returns [res A], and [try ... except] is a [match] on it;
    - the SQLite table [tokens] is a finite map from its primary key
      [token_symbol] to the remaining columns of the row. *)

From Stdlib Require Import Ascii String ZArith QArith Qround Lqa.
From stdpp Require Import gmap strings list fin_maps.

Local Open Scope string_scope.
Local Open Scope list_scope.
Local Open Scope Z_scope.

(** ** Python values and exceptions *)

Inductive exn : Type :=
  | IndexError
  | AttributeError
  | ZeroDivisionError
  | RuntimeError (msg : string)
  | HTTPException (status_code : Z) (detail : string).

Inductive res (A : Type) : Type :=
  | Ok (a : A)
  | Raise (e : exn).
Arguments Ok {A} a.
Arguments Raise {A} e.

Definition bind {A B : Type} (m : res A) (k : A -> res B) : res B :=
  match m with
  | Ok a => k a
  | Raise e => Raise e
  end.

(** [str.isspace] on the ASCII range: TAB, LF, VT, FF, CR, FS, GS, RS, US
    and the space. *)
Definition py_isspace (c : ascii) : bool :=
  let n := nat_of_ascii c in
  ((9 <=? n)%nat && (n <=? 13)%nat) || ((28 <=? n)%nat && (n <=? 32)%nat).

(** [s.split()] with no separator: the maximal runs of non-whitespace
    characters, in order.  [cur] is the run being read. *)
Fixpoint py_split_go (s : string) (cur : string) : list string :=
  match s with
  | EmptyString => if decide (cur = "") then [] else [cur]
  | String c s' =>
      if py_isspace c
      then (if decide (cur = "") then py_split_go s' ""
            else cur :: py_split_go s' "")
      else py_split_go s' (cur +:+ String c "")
  end.

Definition py_split (s : string) : list string := py_split_go s "".

Fixpoint py_lstrip (s : string) : string :=
  match s with
  | EmptyString => EmptyString
  | String c s' => if py_isspace c then py_lstrip s' else s
  end.

(** [s.strip()]. *)
Definition py_strip (s : string) : string :=
  String.rev (py_lstrip (String.rev (py_lstrip s))).

(** [s[1:]]. *)
Definition py_slice_from_1 (s : string) : string :=
  match s with
  | EmptyString => EmptyString
  | String _ s' => s'
  end.

(** [round(x)] of Python: to the nearest integer, ties to the even one. *)
Definition round_half_even (x : Q) : Z :=
  let f := Qfloor x in
  match Qcompare (x - inject_Z f) (1 # 2) with
  | Lt => f
  | Gt => f + 1
  | Eq => if Z.even f then f else f + 1
  end.

(** [round(x, 2)]. *)
Definition py_round2 (x : Q) : Q :=
  Qred (inject_Z (round_half_even (x * 100)) / 100).

(** ** The [tokens] table of [init_db] (src/wom/main.py)

    [token_symbol TEXT PRIMARY KEY] is the key of the map; a row holds the
    other columns.  [wom_score] and [tweet_count] have no default, so they
    are NULL unless written; [created_at] defaults to [CURRENT_TIMESTAMP].

    Instants are counted in microseconds since the epoch.  SQLite writes
    [CURRENT_TIMESTAMP] as the text YYYY-MM-DD HH:MM:SS, that is, truncated
    to the second; the [datetime] bound to a statement is written with its
    microseconds.  Both are fixed-width, most significant field first, so
    the text comparison of the [DELETE] is the comparison of the instants. *)

Record row : Type := mk_row {
  row_token_name : string;
  row_address : string;
  row_age_hours : option Q;
  row_volume_usd : Q;
  row_maker_count : Z;
  row_liquidity_usd : Q;
  row_market_cap_usd : Q;
  row_dex_url : string;
  row_priceChange1h : Q;
  row_wom_score : option Q;
  row_tweet_count : option Z;
  row_created_at : Z
}.

Definition CURRENT_TIMESTAMP (now : Z) : Z := now / 1000000 * 1000000.

Definition hours (h : Z) : Z := h * 3600 * 1000000.

(** ** src/wom/new_pairs_tracker.py *)

Module NewPairsTracker.

Definition pool_types : list string := ["DLMM"; "CLMM"; "CPMM"].

(** The body of the [try] of [extract_and_format_symbol].  The raw label
    is [None] when it is not a string (a JSON null): [.split] then
    raises [AttributeError]. *)
Definition extract_and_format_symbol_try (token_symbol_raw : option string)
  : res string :=
  match token_symbol_raw with
  | None => Raise AttributeError
  | Some raw =>
      let parts := py_split raw in
      if bool_decide (1 < length parts)%nat
         && from_option (fun p => bool_decide (p ∈ pool_types)) false
                        (parts !! 1%nat)
      then match parts !! 2%nat with
           | Some symbol => Ok ("$" +:+ py_strip symbol)
           | None => Raise IndexError
           end
      else match parts !! 1%nat with
           | Some symbol => Ok ("$" +:+ py_strip symbol)
           | None => Raise IndexError
           end
  end.

(** [except (IndexError, AttributeError)] handles these two exceptions
    only; any other one would leave the function. *)
Definition extract_and_format_symbol (token_symbol_raw : option string)
  : res string :=
  match extract_and_format_symbol_try token_symbol_raw with
  | Ok s => Ok s
  | Raise IndexError | Raise AttributeError => Ok "$Unknown"
  | Raise e => Raise e
  end.

(** One record of the discovery feed, as read by the [item.get(key,
    default)] calls of [get_filtered_pairs]: each field is the value the
    call returns. *)
Record item : Type := mk_item {
  item_tokenName : string;
  item_tokenSymbol : option string;
  item_age : option Q;
  item_volumeUsd : Q;
  item_makerCount : Z;
  item_liquidityUsd : Q;
  item_marketCapUsd : Q;
  item_priceChange1h : Q;
  item_address : string
}.

(** The dictionary appended to [filtered_tokens]. *)
Record token : Type := mk_token {
  token_name : string;
  token_symbol : string;
  address : string;
  age_hours : option Q;
  volume_usd : Q;
  maker_count : Z;
  liquidity_usd : Q;
  market_cap_usd : Q;
  priceChange1h : Q
}.

Definition MIN_MAKERS : Z := 7000.
Definition MAX_AGE : Q := 24.

(** The condition of lines 94-95:
    [age is not None and age <= MAX_AGE and maker_count >= MIN_MAKERS]. *)
Definition admitted (age : option Q) (maker_count : Z) : bool :=
  match age with
  | None => false
  | Some a => Qle_bool a MAX_AGE && (MIN_MAKERS <=? maker_count)
  end.

Definition token_of_item (token_symbol : string) (it : item) : token :=
  {| token_name := item_tokenName it;
     token_symbol := token_symbol;
     address := item_address it;
     age_hours := item_age it;
     volume_usd := item_volumeUsd it;
     maker_count := item_makerCount it;
     liquidity_usd := item_liquidityUsd it;
     market_cap_usd := item_marketCapUsd it;
     priceChange1h := item_priceChange1h it |}.

(** One turn of [for item in items], on the pair
    [(filtered_tokens, unique_symbols)]. *)
Definition filter_step (st : list token * gset string) (it : item)
  : res (list token * gset string) :=
  bind (extract_and_format_symbol (item_tokenSymbol it)) (fun token_symbol =>
    if admitted (item_age it) (item_makerCount it)
    then if decide (token_symbol ∈ st.2)
         then Ok st
         else Ok (st.1 ++ [token_of_item token_symbol it],
                  {[token_symbol]} ∪ st.2)
    else Ok st).

Fixpoint filter_loop (items : list item) (st : list token * gset string)
  : res (list token * gset string) :=
  match items with
  | [] => Ok st
  | it :: rest => bind (filter_step st it) (filter_loop rest)
  end.

(** [get_filtered_pairs].  [feed] is what the three requests to the
    discovery service end in: the items of the dataset, or the exception
    of [raise_for_status] or of a failed run. *)
Definition get_filtered_pairs (feed : res (list item)) : res (list token) :=
  bind feed (fun items =>
    bind (filter_loop items ([], ∅)) (fun st => Ok st.1)).

(** The row that the [INSERT OR REPLACE] of [store_tokens] writes at
    instant [now]: the ten columns it lists, and the defaults of the three
    it does not list. *)
Definition inserted_row (now : Z) (tok : token) : row :=
  let dex_url := "https://dexscreener.com/solana/" +:+ address tok in
  {| row_token_name := token_name tok;
     row_address := address tok;
     row_age_hours := age_hours tok;
     row_volume_usd := volume_usd tok;
     row_maker_count := maker_count tok;
     row_liquidity_usd := liquidity_usd tok;
     row_market_cap_usd := market_cap_usd tok;
     row_dex_url := dex_url;
     row_priceChange1h := priceChange1h tok;
     row_wom_score := None;
     row_tweet_count := None;
     row_created_at := CURRENT_TIMESTAMP now |}.

(** [INSERT OR REPLACE]: a row with the same [token_symbol] is deleted and
    the new row takes its place. *)
Definition insert_or_replace (now : Z) (tok : token)
    (db : gmap string row) : gmap string row :=
  <[ token_symbol tok := inserted_row now tok ]> db.

Definition store_tokens (now : Z) (tokens : list token)
    (db : gmap string row) : gmap string row :=
  foldl (fun db tok => insert_or_replace now tok db) db tokens.

(** [fetch_tokens]: the filtered tokens and the table afterwards. *)
Definition fetch_tokens (now : Z) (feed : res (list item))
    (db : gmap string row) : res (list token) * gmap string row :=
  match get_filtered_pairs feed with
  | Ok filtered_tokens =>
      (Ok filtered_tokens,
       match filtered_tokens with
       | [] => db
       | _ :: _ => store_tokens now filtered_tokens db
       end)
  | Raise e => (Raise e, db)
  end.

(** One dictionary of the list [fetch_tokens_from_db] returns: the ten
    columns of its [SELECT]. *)
Record db_token : Type := mk_db_token {
  db_token_symbol : string;
  db_token_name : string;
  db_address : string;
  db_age_hours : option Q;
  db_volume_usd : Q;
  db_maker_count : Z;
  db_liquidity_usd : Q;
  db_market_cap_usd : Q;
  db_dex_url : string;
  db_priceChange1h : Q
}.

Definition db_token_of_row (token_symbol : string) (r : row) : db_token :=
  {| db_token_symbol := token_symbol;
     db_token_name := row_token_name r;
     db_address := row_address r;
     db_age_hours := row_age_hours r;
     db_volume_usd := row_volume_usd r;
     db_maker_count := row_maker_count r;
     db_liquidity_usd := row_liquidity_usd r;
     db_market_cap_usd := row_market_cap_usd r;
     db_dex_url := row_dex_url r;
     db_priceChange1h := row_priceChange1h r |}.

(** [fetch_tokens_from_db]: nothing for an empty list; otherwise the rows
    whose [address] is [IN] the addresses of the tokens, one parameter per
    token.  The statement has no [ORDER BY]: the rows come in the order of
    [map_to_list], which stands for the order SQLite happens to use. *)
Definition fetch_tokens_from_db (filtered_tokens : list token)
    (db : gmap string row) : list db_token :=
  match filtered_tokens with
  | [] => []
  | _ :: _ =>
      let token_addresses := address <$> filtered_tokens in
      (fun kr => db_token_of_row kr.1 kr.2)
        <$> filter (fun kr => row_address kr.2 ∈ token_addresses)
              (map_to_list db)
  end.

End NewPairsTracker.

(** ** src/wom/main.py *)

Module WomMain.

(** [DELETE FROM tokens WHERE created_at <= ?] with
    [cutoff_time = now - timedelta(hours=24)]: the rows that stay are
    those the condition does not hold of. *)
Definition delete_old_tokens (now : Z) (db : gmap string row)
  : gmap string row :=
  let cutoff_time := now - hours 24 in
  filter (fun kr => ¬ (row_created_at kr.2 <= cutoff_time)) db.

(** The JSON object a completed job answers with. *)
Record job_report : Type := mk_report {
  message : string;
  processed_tokens : nat
}.

(** What [get_tweets] answers as [wom_score]:
    [tweets_data.get("wom_score", 0)].  The dictionary comes from
    [fetch_and_analyze]; its entry is absent ([None]), or present with a
    number or a null. *)
Definition get_tweets_wom_score (entry : option (option Q)) : option Q :=
  match entry with
  | None => Some 0%Q
  | Some v => v
  end.

Section Job.

(** [fetch_and_analyze] is imported from a module that is not part of
    the sources at hand.  It is taken as it is called: from a symbol
    and the table, it raises or returns a result, and leaves a table. *)
Variable R : Type.
Variable fetch_and_analyze :
  string -> gmap string row -> res R * gmap string row.

(** [for token in tokens: result = await fetch_and_analyze(...);
    results.append(result)].  There is no handler inside the loop: an
    exception ends it. *)
Fixpoint score_loop (tokens : list NewPairsTracker.token)
    (results : list R) (db : gmap string row)
  : res (list R) * gmap string row :=
  match tokens with
  | [] => (Ok results, db)
  | token :: rest =>
      match fetch_and_analyze (NewPairsTracker.token_symbol token) db with
      | (Ok result, db') => score_loop rest (results ++ [result]) db'
      | (Raise e, db') => (Raise e, db')
      end
  end.

(** [run_scheduled_job].  [SCHEDULE_KEY] is [os.getenv("SCHEDULE_KEY")];
    [t_delete] and [t_store] are the instants at which the eviction and
    the insertions run; [feed] is the outcome of the discovery
    requests. *)
Definition run_scheduled_job (key : string) (SCHEDULE_KEY : option string)
    (t_delete t_store : Z) (feed : res (list NewPairsTracker.item))
    (db : gmap string row) : res job_report * gmap string row :=
  if decide (Some key = SCHEDULE_KEY)
  then
    let db1 := delete_old_tokens t_delete db in
    match NewPairsTracker.fetch_tokens t_store feed db1 with
    | (Raise e, db2) =>
        (Raise (HTTPException 500 "Scheduled job failed."), db2)
    | (Ok tokens, db2) =>
        match score_loop tokens [] db2 with
        | (Raise e, db3) =>
            (Raise (HTTPException 500 "Scheduled job failed."), db3)
        | (Ok results, db3) =>
            (Ok {| message := "Job completed";
                   processed_tokens := length results |}, db3)
        end
    end
  else (Raise (HTTPException 403 "Forbidden"), db).

End Job.

(** One dictionary of the list [fetch_tokens_from_db] of this module
    returns. *)
Record token_details : Type := mk_token_details {
  Token : string;
  Age : option Q;
  Volume : Q;
  MakerCount : Z;
  Liquidity : Q;
  MarketCap : Q;
  dex_url : string;
  details_priceChange1h : Q;
  WomScore : option Q;
  TweetCount : option Z
}.

Definition token_details_of_row (token_symbol : string) (r : row)
  : token_details :=
  {| Token := token_symbol;
     Age := row_age_hours r;
     Volume := row_volume_usd r;
     MakerCount := row_maker_count r;
     Liquidity := row_liquidity_usd r;
     MarketCap := row_market_cap_usd r;
     dex_url := row_dex_url r;
     details_priceChange1h := row_priceChange1h r;
     WomScore := row_wom_score r;
     TweetCount := row_tweet_count r |}.

(** [fetch_tokens_from_db]: every row of the table, in the order of
    [map_to_list] (the [SELECT] has no [ORDER BY]). *)
Definition fetch_tokens_from_db (db : gmap string row) : list token_details :=
  (fun kr => token_details_of_row kr.1 kr.2) <$> map_to_list db.

(** What [get_tokens_details] answers: the message, or the list. *)
Inductive tokens_answer : Type :=
  | NoTokensAvailable
  | TokenList (tokens : list token_details).

(** [get_tokens_details], on a table that can be read. *)
Definition get_tokens_details (db : gmap string row) : tokens_answer :=
  match fetch_tokens_from_db db with
  | [] => NoTokensAvailable
  | tokens => TokenList tokens
  end.

End WomMain.

(** ** src/crypto_lens/main.py

    The older variant of the eviction.  Its table has the columns of
    [row], the timestamp column being called [updated_at]. *)

Module CryptoLensMain.

(** The condition [age_hours >= 24] of the [DELETE]; it does not hold of a
    NULL [age_hours]. *)
Definition age_hours_ge_24 (r : row) : bool :=
  match row_age_hours r with
  | None => false
  | Some a => Qle_bool 24 a
  end.

(** [DELETE FROM tokens WHERE age_hours >= 24]. *)
Definition delete_where_age_hours_ge_24 (db : gmap string row)
  : gmap string row :=
  filter (fun kr => age_hours_ge_24 kr.2 = false) db.

(** [delete_old_tokens]: the statement before the [DELETE] calls
    [datetime.utc], which the class [datetime] does not have, so the
    function raises [AttributeError] with the table as it was. *)
Definition delete_old_tokens (db : gmap string row)
  : res unit * gmap string row :=
  (Raise AttributeError, db).

End CryptoLensMain.

(** ** src/crypto_lens/twitter_analysis.py *)

Module TwitterAnalysis.

(** One item of the tweet dataset, as read by [item.get("text", "")] and
    [item.get("userFollowersCount", 0)]. *)
Record tweet : Type := mk_tweet {
  text : string;
  userFollowersCount : Z
}.

(** The value under ["Bullishness"] in a line of the result: the average,
    [None], or the string ["Error"]. *)
Inductive bullishness : Type :=
  | Average (avg_bullishness : Q)
  | NoBullishness
  | Error.

Record line : Type := mk_line {
  Cashtag : string;
  Bullishness : bullishness
}.

(** Line 43. *)
Definition search_term (cashtag : string) : string :=
  if bool_decide (6 < String.length cashtag)%nat
  then py_slice_from_1 cashtag
  else cashtag.

(** [sum(bullishness_scores)]: from 0, left to right. *)
Definition py_sum (l : list Q) : Q := foldl Qplus 0%Q l.

(** Lines 73-77: the value stored for a cashtag from its scores. *)
Definition average_of (bullishness_scores : list Q) : bullishness :=
  match bullishness_scores with
  | [] => NoBullishness
  | _ :: _ =>
      Average (py_round2 (py_sum bullishness_scores
                          / inject_Z (Z.of_nat (length bullishness_scores))))
  end.

Section Analysis.

(** The collaborators of the module: the FinBERT tokenizer and model
    followed by [softmax] ([probs], the three class probabilities of a
    text), the two helpers imported from [utils], and the tweet scraper
    ([call_actor], from a search term to the items of the run's
    dataset, or an exception). *)
Variable probs : string -> Q * Q * Q.
Variable preprocess_tweet : string -> string.
Variable is_relevant_tweet : string -> bool.
Variable call_actor : string -> res (list tweet).

(** [calculate_bullishness].  [probs[0]] is the first and [probs[2]]
    the third component.  Dividing by zero raises. *)
Definition calculate_bullishness (tweet_text : string) : res Q :=
  let '(p0, _, p2) := probs tweet_text in
  let bullish_prob := py_round2 (p0 * 100) in
  let bearish_prob := py_round2 (p2 * 100) in
  if Qeq_bool (bullish_prob + bearish_prob) 0
  then Raise ZeroDivisionError
  else Ok (py_round2 (bullish_prob / (bullish_prob + bearish_prob))).

(** The loop over the items of the dataset, on [bullishness_scores]. *)
Fixpoint score_items (items : list tweet) (bullishness_scores : list Q)
  : res (list Q) :=
  match items with
  | [] => Ok bullishness_scores
  | item :: rest =>
      let raw_tweet := py_strip (text item) in
      let tweet_text := preprocess_tweet raw_tweet in
      if negb (is_relevant_tweet tweet_text)
      then score_items rest bullishness_scores
      else if userFollowersCount item <? 150
      then score_items rest bullishness_scores
      else bind (calculate_bullishness tweet_text) (fun score =>
             score_items rest (bullishness_scores ++ [score]))
  end.

(** The [try ... except Exception] of one cashtag: the line appended to
    [data]. *)
Definition analyze_cashtag (cashtag : string) : line :=
  match bind (call_actor (search_term cashtag))
             (fun items => score_items items []) with
  | Ok bullishness_scores =>
      {| Cashtag := cashtag; Bullishness := average_of bullishness_scores |}
  | Raise _ => {| Cashtag := cashtag; Bullishness := Error |}
  end.

(** [for cashtag in cashtags], on [data]. *)
Fixpoint analyze_loop (cashtags : list string) (data : list line)
  : list line :=
  match cashtags with
  | [] => data
  | cashtag :: rest => analyze_loop rest (data ++ [analyze_cashtag cashtag])
  end.

(** [analyze_cashtags]; the data frame is the list of its lines. *)
Definition analyze_cashtags (cashtags : list string) : list line :=
  analyze_loop cashtags [].

End Analysis.

End TwitterAnalysis.

(** ** src/crypto_lens/twitter_sentiment.py *)

Module TwitterSentiment.

(** Line 35. *)
Definition search_term (cashtag : string) : string :=
  if bool_decide (7 < String.length cashtag)%nat
  then py_slice_from_1 cashtag
  else cashtag.

(** The value stored for a cashtag in [overall_sentiments]. *)
Inductive sentiment : Type :=
  | Positive
  | Negative
  | Neutral
  | NoTweetsFound
  | ErrorFetchingTweets.

(** [get_new_pairs], from the list the tracker returned, each token given
    by the value of its ["token_symbol"] ([None] when absent or null).  A
    token counts when that value is a non-empty string; the cashtags are
    the elements of a [set], in no specified order. *)
Definition get_new_pairs (tokens : list (option string)) : list string :=
  match tokens with
  | [] => []
  | _ :: _ =>
      elements
        (list_to_set (C := gset string)
           (omap (fun token_symbol =>
                    match token_symbol with
                    | Some sym =>
                        if decide (sym = "") then None else Some ("$" +:+ sym)
                    | None => None
                    end) tokens))
  end.

(** [sum(sentiment_scores)]. *)
Definition py_sum (l : list Q) : Q := foldl Qplus 0%Q l.

(** Lines 59-68: the label from the polarities of the tweets. *)
Definition sentiment_of (sentiment_scores : list Q) : sentiment :=
  match sentiment_scores with
  | [] => NoTweetsFound
  | _ :: _ =>
      let average_sentiment :=
        (py_sum sentiment_scores
         / inject_Z (Z.of_nat (length sentiment_scores)))%Q in
      if Qlt_le_dec 0 average_sentiment then Positive
      else if Qlt_le_dec average_sentiment 0 then Negative
      else Neutral
  end.

Section Sentiment.

(** The collaborators: the tweet scraper, which gives the ["text"] of
    each item of the run's dataset or raises, and the polarity that
    TextBlob assigns to a text. *)
Variable call_actor : string -> res (list string).
Variable polarity : string -> Q.

(** The loop over the items, on [sentiment_scores]: a tweet whose text is
    empty once stripped is skipped. *)
Fixpoint polarities (texts : list string) (sentiment_scores : list Q)
  : list Q :=
  match texts with
  | [] => sentiment_scores
  | item_text :: rest =>
      let tweet_text := py_strip item_text in
      if decide (tweet_text = "")
      then polarities rest sentiment_scores
      else polarities rest (sentiment_scores ++ [polarity tweet_text])
  end.

(** The [try ... except Exception] of one cashtag: the value stored under
    the cashtag. *)
Definition analyze_cashtag (cashtag : string) : sentiment :=
  match call_actor (search_term cashtag) with
  | Ok texts => sentiment_of (polarities texts [])
  | Raise _ => ErrorFetchingTweets
  end.

(** [for cashtag in cashtags], on the dictionary [overall_sentiments]. *)
Fixpoint analyze_loop (cashtags : list string)
    (overall_sentiments : gmap string sentiment) : gmap string sentiment :=
  match cashtags with
  | [] => overall_sentiments
  | cashtag :: rest =>
      analyze_loop rest (<[ cashtag := analyze_cashtag cashtag ]> overall_sentiments)
  end.

Definition analyze_cashtags (cashtags : list string) : gmap string sentiment :=
  analyze_loop cashtags ∅.

End Sentiment.

End TwitterSentiment.

(** ** The batch as the specification describes it

    The candidates of a batch are its admitted items, each under its
    canonical symbol, in feed order; the Deduplicator is an ordered pass
    with an auxiliary set of the symbols seen so far. *)

Module Batch.
Import NewPairsTracker.

Definition canonical_symbol (it : item) : string :=
  match extract_and_format_symbol (item_tokenSymbol it) with
  | Ok s => s
  | Raise _ => "$Unknown"
  end.

Fixpoint admitted_candidates (items : list item) : list token :=
  match items with
  | [] => []
  | it :: rest =>
      if admitted (item_age it) (item_makerCount it)
      then token_of_item (canonical_symbol it) it :: admitted_candidates rest
      else admitted_candidates rest
  end.

Fixpoint first_seen_wins (seen : gset string) (l : list token)
  : list token :=
  match l with
  | [] => []
  | t :: rest =>
      if decide (token_symbol t ∈ seen)
      then first_seen_wins seen rest
      else t :: first_seen_wins ({[token_symbol t]} ∪ seen) rest
  end.

End Batch.

(** ** The scenario of the specification: [$XYZ] discovered, then
    discovered again with another maker count *)

Definition xyz_first : NewPairsTracker.token :=
  {| NewPairsTracker.token_name := "Xyz";
     NewPairsTracker.token_symbol := "$XYZ";
     NewPairsTracker.address := "addr";
     NewPairsTracker.age_hours := Some (10 # 1);
     NewPairsTracker.volume_usd := 200000 # 1;
     NewPairsTracker.maker_count := 8000;
     NewPairsTracker.liquidity_usd := 60000 # 1;
     NewPairsTracker.market_cap_usd := 300000 # 1;
     NewPairsTracker.priceChange1h := 1 # 2 |}.

Definition xyz_later : NewPairsTracker.token :=
  {| NewPairsTracker.token_name := "Xyz";
     NewPairsTracker.token_symbol := "$XYZ";
     NewPairsTracker.address := "addr";
     NewPairsTracker.age_hours := Some (11 # 1);
     NewPairsTracker.volume_usd := 250000 # 1;
     NewPairsTracker.maker_count := 9500;
     NewPairsTracker.liquidity_usd := 60000 # 1;
     NewPairsTracker.market_cap_usd := 300000 # 1;
     NewPairsTracker.priceChange1h := 1 # 4 |}.

(** A token whose age field says 30 hours. *)
Definition xyz_aged : NewPairsTracker.token :=
  {| NewPairsTracker.token_name := "Old";
     NewPairsTracker.token_symbol := "$OLD";
     NewPairsTracker.address := "addr3";
     NewPairsTracker.age_hours := Some (30 # 1);
     NewPairsTracker.volume_usd := 0;
     NewPairsTracker.maker_count := 7000;
     NewPairsTracker.liquidity_usd := 0;
     NewPairsTracker.market_cap_usd := 0;
     NewPairsTracker.priceChange1h := 0 |}.

(** The table after the first discovery, at instant 0, and once the
    scoring pass has written a score and a tweet count into the row. *)
Definition db_first : gmap string row :=
  NewPairsTracker.store_tokens 0 [xyz_first] ∅.

Definition db_scored : gmap string row :=
  <[ "$XYZ" :=
       {| row_token_name := "Xyz";
          row_address := "addr";
          row_age_hours := Some (10 # 1);
          row_volume_usd := 200000 # 1;
          row_maker_count := 8000;
          row_liquidity_usd := 60000 # 1;
          row_market_cap_usd := 300000 # 1;
          row_dex_url := "https://dexscreener.com/solana/addr";
          row_priceChange1h := 1 # 2;
          row_wom_score := Some (4 # 5);
          row_tweet_count := Some 2;
          row_created_at := 0 |} ]> ∅.

(** A row without an age, created at hour 30. *)
Definition row_unaged : row :=
  {| row_token_name := "New";
     row_address := "addr2";
     row_age_hours := None;
     row_volume_usd := 0;
     row_maker_count := 7000;
     row_liquidity_usd := 0;
     row_market_cap_usd := 0;
     row_dex_url := "https://dexscreener.com/solana/addr2";
     row_priceChange1h := 0;
     row_wom_score := None;
     row_tweet_count := None;
     row_created_at := hours 30 |}.

Definition db_unaged : gmap string row := <[ "$NEW" := row_unaged ]> ∅.

(** ** A scheduled job over two tokens *)

Definition item_aaa : NewPairsTracker.item :=
  {| NewPairsTracker.item_tokenName := "Aaa";
     NewPairsTracker.item_tokenSymbol := Some "Aaa AAA";
     NewPairsTracker.item_age := Some (3 # 1);
     NewPairsTracker.item_volumeUsd := 200000 # 1;
     NewPairsTracker.item_makerCount := 8000;
     NewPairsTracker.item_liquidityUsd := 60000 # 1;
     NewPairsTracker.item_marketCapUsd := 300000 # 1;
     NewPairsTracker.item_priceChange1h := 0;
     NewPairsTracker.item_address := "addrA" |}.

Definition item_bbb : NewPairsTracker.item :=
  {| NewPairsTracker.item_tokenName := "Bbb";
     NewPairsTracker.item_tokenSymbol := Some "Bbb BBB";
     NewPairsTracker.item_age := Some (5 # 1);
     NewPairsTracker.item_volumeUsd := 200000 # 1;
     NewPairsTracker.item_makerCount := 9000;
     NewPairsTracker.item_liquidityUsd := 60000 # 1;
     NewPairsTracker.item_marketCapUsd := 300000 # 1;
     NewPairsTracker.item_priceChange1h := 0;
     NewPairsTracker.item_address := "addrB" |}.

Definition with_score (wom_score : Q) (tweet_count : Z) (r : row) : row :=
  {| row_token_name := row_token_name r;
     row_address := row_address r;
     row_age_hours := row_age_hours r;
     row_volume_usd := row_volume_usd r;
     row_maker_count := row_maker_count r;
     row_liquidity_usd := row_liquidity_usd r;
     row_market_cap_usd := row_market_cap_usd r;
     row_dex_url := row_dex_url r;
     row_priceChange1h := row_priceChange1h r;
     row_wom_score := Some wom_score;
     row_tweet_count := Some tweet_count;
     row_created_at := row_created_at r |}.

(** A scoring collaborator that writes a score into the row of the symbol
    and returns the symbol, and one whose post feed fails for [$AAA]. *)
Definition scoring_ok (token_symbol : string) (db : gmap string row)
  : res string * gmap string row :=
  (Ok token_symbol, alter (with_score (4 # 5) 2) token_symbol db).

Definition scoring_fails_on_aaa (token_symbol : string) (db : gmap string row)
  : res string * gmap string row :=
  if decide (token_symbol = "$AAA")
  then (Raise (RuntimeError "post feed error"), db)
  else scoring_ok token_symbol db.

(** ** Auxiliary notions for the statements *)

(** A string with a whitespace character in it. *)
Fixpoint has_space (s : string) : bool :=
  match s with
  | EmptyString => false
  | String c s' => py_isspace c || has_space s'
  end.

(** The posts of a dataset that pass the two filters of
    [TwitterAnalysis.score_items], as the texts that are scored. *)
Fixpoint qualifying_texts (preprocess_tweet : string -> string)
    (is_relevant_tweet : string -> bool)
    (items : list TwitterAnalysis.tweet) : list string :=
  match items with
  | [] => []
  | item :: rest =>
      let tweet_text := preprocess_tweet (py_strip (TwitterAnalysis.text item)) in
      if is_relevant_tweet tweet_text
         && negb (TwitterAnalysis.userFollowersCount item <? 150)
      then tweet_text :: qualifying_texts preprocess_tweet is_relevant_tweet rest
      else qualifying_texts preprocess_tweet is_relevant_tweet rest
  end.

(** The dictionary [NewPairsTracker.fetch_tokens_from_db] returns for a
    token that [store_tokens] has written. *)
Definition db_token_of_token (tok : NewPairsTracker.token)
  : NewPairsTracker.db_token :=
  {| NewPairsTracker.db_token_symbol := NewPairsTracker.token_symbol tok;
     NewPairsTracker.db_token_name := NewPairsTracker.token_name tok;
     NewPairsTracker.db_address := NewPairsTracker.address tok;
     NewPairsTracker.db_age_hours := NewPairsTracker.age_hours tok;
     NewPairsTracker.db_volume_usd := NewPairsTracker.volume_usd tok;
     NewPairsTracker.db_maker_count := NewPairsTracker.maker_count tok;
     NewPairsTracker.db_liquidity_usd := NewPairsTracker.liquidity_usd tok;
     NewPairsTracker.db_market_cap_usd := NewPairsTracker.market_cap_usd tok;
     NewPairsTracker.db_dex_url :=
       "https://dexscreener.com/solana/" +:+ NewPairsTracker.address tok;
     NewPairsTracker.db_priceChange1h := NewPairsTracker.priceChange1h tok |}.

(** A string made of whitespace only. *)
Fixpoint all_space (s : string) : bool :=
  match s with
  | EmptyString => true
  | String c s' => py_isspace c && all_space s'
  end.

(** * Properties *)

(** ** Rounding *)

Section Rounding.

Local Open Scope Q_scope.

Lemma round_half_even_floor (x : Q) :
  round_half_even x = Qfloor x ∨ round_half_even x = (Qfloor x + 1)%Z.
Proof.
  unfold round_half_even.
  destruct (Qcompare _ _); [destruct (Z.even _)|..]; auto.
Qed.

(** The rounded integer is at most one half away. *)
Lemma round_half_even_near (x : Q) :
  x - (1 # 2) <= inject_Z (round_half_even x) <= x + (1 # 2).
Proof.
  pose proof (Qfloor_le x) as Hlo.
  pose proof (Qlt_floor x) as Hhi.
  rewrite inject_Z_plus in Hhi. change (inject_Z 1) with 1 in Hhi.
  unfold round_half_even.
  destruct (Qcompare (x - inject_Z (Qfloor x)) (1 # 2)) eqn:Hc.
  - apply Qeq_alt in Hc.
    destruct (Z.even (Qfloor x)).
    + split; lra.
    + rewrite inject_Z_plus. change (inject_Z 1) with 1. split; lra.
  - apply Qlt_alt in Hc. split; lra.
  - apply Qgt_alt in Hc. rewrite inject_Z_plus.
    change (inject_Z 1) with 1. split; lra.
Qed.

(** An integer is its own rounding. *)
Lemma round_half_even_Z (n : Z) : round_half_even (inject_Z n) = n.
Proof.
  unfold round_half_even. rewrite Qfloor_Z.
  replace (Qcompare _ _) with Lt; [done|].
  symmetry. rewrite <- Qlt_alt. lra.
Qed.

(** Rounding depends on the value of the rational only. *)
Lemma round_half_even_comp (x y : Q) :
  x == y → round_half_even x = round_half_even y.
Proof.
  intros H. unfold round_half_even.
  rewrite (Qfloor_comp _ _ H).
  by rewrite (Qcompare_comp _ _ (Qminus_comp _ _ H _ _ (Qeq_refl _))
                _ _ (Qeq_refl (1 # 2))).
Qed.

Lemma py_round2_comp (x y : Q) : x == y → py_round2 x = py_round2 y.
Proof.
  intros H. unfold py_round2.
  rewrite (round_half_even_comp (x * 100) (y * 100)); [done|].
  by rewrite H.
Qed.

Lemma round_half_even_bounds (a b : Z) (x : Q) :
  inject_Z a <= x <= inject_Z b →
  (a <= round_half_even x <= b)%Z.
Proof.
  intros [Ha Hb].
  pose proof (Qfloor_resp_le _ _ Ha) as Hfa. rewrite Qfloor_Z in Hfa.
  pose proof (Qfloor_resp_le _ _ Hb) as Hfb. rewrite Qfloor_Z in Hfb.
  destruct (Z.eq_dec (Qfloor x) b) as [Heq|Hne].
  - assert (x == inject_Z b) as Hx.
    { pose proof (Qfloor_le x) as Hlo. rewrite Heq in Hlo. lra. }
    unfold round_half_even. rewrite Heq.
    replace (Qcompare _ _) with Lt; [lia|].
    symmetry. rewrite <- Qlt_alt. lra.
  - destruct (round_half_even_floor x) as [-> | ->]; lia.
Qed.

Lemma py_round2_cents (x : Q) :
  py_round2 x == inject_Z (round_half_even (x * 100)) / 100.
Proof. unfold py_round2. apply Qred_correct. Qed.

(** [round(x, 2)] is within half a hundredth of [x]. *)
Lemma py_round2_near (x : Q) :
  x - (1 # 200) <= py_round2 x <= x + (1 # 200).
Proof.
  rewrite py_round2_cents.
  pose proof (round_half_even_near (x * 100)) as [Hlo Hhi].
  split.
  - apply Qle_shift_div_l; lra.
  - apply Qle_shift_div_r; lra.
Qed.

Lemma py_round2_nonneg (x : Q) : 0 <= x → 0 <= py_round2 x.
Proof.
  intros Hx. rewrite py_round2_cents.
  assert (0 <= round_half_even (x * 100))%Z as Hn.
  { apply (round_half_even_bounds 0 (Qceiling (x * 100))).
    split; [change (inject_Z 0) with 0; lra | apply Qle_ceiling]. }
  apply Qle_shift_div_l; [lra|].
  rewrite Qmult_0_l. rewrite Zle_Qle in Hn. exact Hn.
Qed.

Lemma py_round2_unit (x : Q) : 0 <= x <= 1 → 0 <= py_round2 x <= 1.
Proof.
  intros [H0 H1]. split; [by apply py_round2_nonneg|].
  rewrite py_round2_cents.
  assert (0 <= round_half_even (x * 100) <= 100)%Z as [_ Hn].
  { apply round_half_even_bounds.
    change (inject_Z 0) with 0. change (inject_Z 100) with 100. lra. }
  apply Qle_shift_div_r; [lra|].
  rewrite Zle_Qle in Hn. change (inject_Z 100) with 100 in Hn. lra.
Qed.

End Rounding.

(** ** Symbol Normalizer *)

Section Normalizer.
Import NewPairsTracker.

(** The handler covers every exception the body can raise. *)
Lemma extract_and_format_symbol_total (raw : option string) :
  ∃ s, extract_and_format_symbol raw = Ok s.
Proof.
  unfold extract_and_format_symbol, extract_and_format_symbol_try.
  destruct raw as [raw|]; [|by eexists].
  destruct (_ && _); destruct (_ !! _); by eexists.
Qed.

Lemma canonical_symbol_eq (it : item) :
  extract_and_format_symbol (item_tokenSymbol it)
  = Ok (Batch.canonical_symbol it).
Proof.
  unfold Batch.canonical_symbol.
  by destruct (extract_and_format_symbol_total (item_tokenSymbol it)) as [s ->].
Qed.

End Normalizer.

(** C6: the Symbol Normalizer yields [$BAR] on [Foo DLMM BAR] and on
    [Foo BAR]; on every label with too few whitespace-separated tokens (at
    most one token, or two tokens of which the second is a pool-type
    marker, so that the position of the symbol is missing) it returns the
    sentinel [$Unknown]; and it never raises, whatever the label. *)
Theorem extract_and_format_symbol_cases :
  NewPairsTracker.extract_and_format_symbol (Some "Foo DLMM BAR") = Ok "$BAR"
  ∧ NewPairsTracker.extract_and_format_symbol (Some "Foo BAR") = Ok "$BAR"
  ∧ (∀ raw : string,
       (length (py_split raw) ≤ 1)%nat →
       NewPairsTracker.extract_and_format_symbol (Some raw) = Ok "$Unknown")
  ∧ (∀ (raw : string) (marker : string),
       length (py_split raw) = 2%nat →
       py_split raw !! 1%nat = Some marker →
       marker ∈ NewPairsTracker.pool_types →
       NewPairsTracker.extract_and_format_symbol (Some raw) = Ok "$Unknown")
  ∧ (∀ raw : option string,
       ∃ s, NewPairsTracker.extract_and_format_symbol raw = Ok s).
Proof.
  split; [reflexivity|]. split; [reflexivity|].
  split; [|split; [|apply extract_and_format_symbol_total]].
  - intros raw Hlen.
    unfold NewPairsTracker.extract_and_format_symbol,
      NewPairsTracker.extract_and_format_symbol_try.
    rewrite bool_decide_eq_false_2 by lia. simpl.
    by rewrite (lookup_ge_None_2 (py_split raw) 1) by lia.
  - intros raw marker Hlen Hm Hin.
    unfold NewPairsTracker.extract_and_format_symbol,
      NewPairsTracker.extract_and_format_symbol_try.
    rewrite bool_decide_eq_true_2 by lia.
    rewrite Hm. simpl. rewrite bool_decide_eq_true_2 by done.
    by rewrite (lookup_ge_None_2 (py_split raw) 2) by lia.
Qed.

Lemma extract_and_format_symbol_cases_witness :
  (length (py_split "Foo") ≤ 1)%nat
  ∧ NewPairsTracker.extract_and_format_symbol (Some "Foo") = Ok "$Unknown".
Proof.
  split; [vm_compute; lia|].
  destruct extract_and_format_symbol_cases as (_ & _ & H & _).
  apply H. vm_compute. lia.
Defined.

(** ** Search terms *)

Lemma py_slice_from_1_length (s : string) :
  String.length (py_slice_from_1 s) = (String.length s - 1)%nat.
Proof. destruct s; simpl; lia. Qed.

(** C10: the two code paths that derive the search term of a cashtag
    disagree: [twitter_analysis] drops the first character when the cashtag
    is longer than 6 characters, [twitter_sentiment] when it is longer than
    7; they differ exactly on the cashtags of length 7, and there is one. *)
Theorem search_terms_disagree :
  (∀ cashtag : string,
     ((6 < String.length cashtag)%nat →
        TwitterAnalysis.search_term cashtag = py_slice_from_1 cashtag)
     ∧ ((String.length cashtag ≤ 6)%nat →
        TwitterAnalysis.search_term cashtag = cashtag)
     ∧ ((7 < String.length cashtag)%nat →
        TwitterSentiment.search_term cashtag = py_slice_from_1 cashtag)
     ∧ ((String.length cashtag ≤ 7)%nat →
        TwitterSentiment.search_term cashtag = cashtag)
     ∧ (TwitterAnalysis.search_term cashtag
          ≠ TwitterSentiment.search_term cashtag
        ↔ String.length cashtag = 7%nat))
  ∧ ∃ cashtag : string,
      String.length cashtag = 7%nat
      ∧ TwitterAnalysis.search_term cashtag = "ABCDEF"
      ∧ TwitterSentiment.search_term cashtag = "$ABCDEF".
Proof.
  split; [|by exists "$ABCDEF"].
  intros cashtag.
  unfold TwitterAnalysis.search_term, TwitterSentiment.search_term.
  repeat split.
  - intros H. by rewrite bool_decide_eq_true_2.
  - intros H. by rewrite bool_decide_eq_false_2 by lia.
  - intros H. by rewrite bool_decide_eq_true_2.
  - intros H. by rewrite bool_decide_eq_false_2 by lia.
  - intros Hne.
    destruct (decide (String.length cashtag = 7%nat)) as [|Hlen]; [done|].
    exfalso. apply Hne.
    repeat case_bool_decide; try done; lia.
  - intros Hlen Heq.
    rewrite bool_decide_eq_true_2 in Heq by lia.
    rewrite bool_decide_eq_false_2 in Heq by lia.
    apply (f_equal String.length) in Heq.
    rewrite py_slice_from_1_length in Heq. lia.
Qed.

Lemma search_terms_disagree_witness :
  String.length "$ABCDEF" = 7%nat
  ∧ TwitterAnalysis.search_term "$ABCDEF"
      ≠ TwitterSentiment.search_term "$ABCDEF".
Proof.
  split; [reflexivity|].
  destruct search_terms_disagree as [H _].
  destruct (H "$ABCDEF") as (_ & _ & _ & _ & Hiff).
  apply Hiff. reflexivity.
Defined.

(** ** Candidate Filter and Deduplicator *)

Section Dedup.
Import NewPairsTracker.

Lemma admitted_true (age : option Q) (maker_count : Z) :
  admitted age maker_count = true
  ↔ ∃ a, age = Some a ∧ (a <= 24)%Q ∧ 7000 <= maker_count.
Proof.
  unfold admitted, MAX_AGE, MIN_MAKERS. split.
  - destruct age as [a|]; [|done].
    intros [Ha Hm]%andb_prop. exists a.
    apply Qle_bool_iff in Ha. apply Z.leb_le in Hm. done.
  - intros (a & -> & Ha & Hm). apply andb_true_intro.
    split; [by apply Qle_bool_iff | by apply Z.leb_le].
Qed.

(** The loop of [get_filtered_pairs] is the ordered pass over the
    admitted candidates, started from the tokens and symbols at hand. *)
Lemma filter_loop_first_seen_wins (items : list item)
    (filtered_tokens : list token) (unique_symbols : gset string) :
  ∃ seen,
    filter_loop items (filtered_tokens, unique_symbols)
    = Ok (filtered_tokens
            ++ Batch.first_seen_wins unique_symbols
                 (Batch.admitted_candidates items), seen).
Proof.
  revert filtered_tokens unique_symbols.
  induction items as [|it rest IH]; intros acc seen; simpl.
  - exists seen. by rewrite app_nil_r.
  - unfold filter_step. rewrite canonical_symbol_eq. simpl.
    destruct (admitted _ _); simpl; [|apply IH].
    destruct (decide _) as [Hin|Hnin]; simpl.
    + apply IH.
    + destruct (IH (acc ++ [token_of_item (Batch.canonical_symbol it) it])
                  ({[Batch.canonical_symbol it]} ∪ seen)) as [seen' ->].
      exists seen'. by rewrite <- app_assoc.
Qed.

Lemma get_filtered_pairs_first_seen_wins (items : list item) :
  get_filtered_pairs (Ok items)
  = Ok (Batch.first_seen_wins ∅ (Batch.admitted_candidates items)).
Proof.
  unfold get_filtered_pairs. simpl.
  by destruct (filter_loop_first_seen_wins items [] ∅) as [seen ->].
Qed.

Lemma first_seen_wins_fresh (seen : gset string) (l : list token) (t : token) :
  t ∈ Batch.first_seen_wins seen l → token_symbol t ∉ seen.
Proof.
  revert seen. induction l as [|t0 rest IH]; intros seen; simpl.
  - by intros ?%elem_of_nil.
  - destruct (decide _) as [Hin|Hnin]; [apply IH|].
    intros [->|Ht]%elem_of_cons; [done|].
    apply IH in Ht. set_solver.
Qed.

Lemma first_seen_wins_NoDup (seen : gset string) (l : list token) :
  NoDup (token_symbol <$> Batch.first_seen_wins seen l).
Proof.
  revert seen. induction l as [|t0 rest IH]; intros seen; simpl.
  - constructor.
  - destruct (decide _) as [Hin|Hnin]; [apply IH|].
    rewrite fmap_cons. constructor; [|apply IH].
    intros (t & Heq & Ht)%list_elem_of_fmap.
    apply first_seen_wins_fresh in Ht. set_solver.
Qed.

Lemma first_seen_wins_sublist (seen : gset string) (l : list token) :
  Batch.first_seen_wins seen l `sublist_of` l.
Proof.
  revert seen. induction l as [|t0 rest IH]; intros seen; simpl.
  - constructor.
  - destruct (decide _); [by apply sublist_cons | by apply sublist_skip].
Qed.

(** What survives: the entries that no earlier entry shares the symbol
    of (and whose symbol was not seen before the pass). *)
Lemma first_seen_wins_elem (seen : gset string) (l : list token) (t : token) :
  t ∈ Batch.first_seen_wins seen l
  ↔ ∃ i : nat,
      l !! i = Some t
      ∧ (token_symbol t ∉ seen)
      ∧ (∀ (j : nat) (t' : token),
           (j < i)%nat → l !! j = Some t' → token_symbol t' ≠ token_symbol t).
Proof.
  revert seen. induction l as [|t0 rest IH]; intros seen; simpl.
  - split; [by intros ?%elem_of_nil | by intros (i & ? & _)].
  - destruct (decide (token_symbol t0 ∈ seen)) as [Hin|Hnin].
    + rewrite IH. split.
      * intros (i & Hi & Hs & Hbefore). exists (S i).
        split; [done|]. split; [done|].
        intros [|j] t' Hlt Hj; simpl in Hj.
        -- injection Hj as <-. congruence.
        -- apply (Hbefore j); [lia | done].
      * intros ([|i] & Hi & Hs & Hbefore); simpl in Hi.
        -- injection Hi as <-. done.
        -- exists i. split; [done|]. split; [done|].
           intros j t' Hlt Hj. apply (Hbefore (S j)); [lia | done].
    + rewrite elem_of_cons, IH. split.
      * intros [->|(i & Hi & Hs & Hbefore)].
        -- exists 0%nat. split; [done|]. split; [done|]. intros; lia.
        -- apply not_elem_of_union in Hs as [Hs0 Hs].
           rewrite not_elem_of_singleton in Hs0.
           exists (S i). split; [done|]. split; [done|].
           intros [|j] t' Hlt Hj; simpl in Hj.
           ++ injection Hj as <-. congruence.
           ++ apply (Hbefore j); [lia | done].
      * intros ([|i] & Hi & Hs & Hbefore); simpl in Hi.
        -- injection Hi as <-. by left.
        -- right. exists i. split; [done|].
           pose proof (Hbefore 0%nat t0 ltac:(lia) eq_refl) as Hne.
           split.
           { apply not_elem_of_union. split; [|done].
             rewrite not_elem_of_singleton. congruence. }
           intros j t' Hlt Hj. apply (Hbefore (S j)); [lia | done].
Qed.

End Dedup.

Section Batches.
Import NewPairsTracker.

Lemma admitted_candidates_elem (items : list item) (t : token) :
  t ∈ Batch.admitted_candidates items
  ↔ ∃ it, it ∈ items
          ∧ admitted (item_age it) (item_makerCount it) = true
          ∧ t = token_of_item (Batch.canonical_symbol it) it.
Proof.
  induction items as [|it0 rest IH]; simpl.
  - split; [by intros ?%elem_of_nil | by intros (it & ?%elem_of_nil & _)].
  - destruct (admitted (item_age it0) (item_makerCount it0)) eqn:Hadm.
    + rewrite elem_of_cons, IH. split.
      * intros [->|(it & Hin & Ha & ->)].
        -- exists it0. split; [by left | done].
        -- exists it. split; [by right | done].
      * intros (it & [->|Hin]%elem_of_cons & Ha & ->).
        -- by left.
        -- right. by exists it.
    + rewrite IH. split.
      * intros (it & Hin & Ha & ->). exists it. split; [by right | done].
      * intros (it & [->|Hin]%elem_of_cons & Ha & ->); [congruence|].
        by exists it.
Qed.

(** No symbol of the candidates is lost by the pass. *)
Lemma first_seen_wins_covers (seen : gset string) (l : list token) (t : token) :
  t ∈ l →
  token_symbol t ∈ seen
  ∨ ∃ t', t' ∈ Batch.first_seen_wins seen l ∧ token_symbol t' = token_symbol t.
Proof.
  revert seen. induction l as [|t0 rest IH]; intros seen; simpl.
  - by intros ?%elem_of_nil.
  - intros [->|Hin]%elem_of_cons.
    + destruct (decide _) as [Hs|Hs]; [by left|].
      right. exists t0. split; [by left | done].
    + destruct (decide (token_symbol t0 ∈ seen)) as [Hs|Hs]; [by apply IH|].
      destruct (IH ({[token_symbol t0]} ∪ seen) Hin)
        as [[->%elem_of_singleton|Hseen]%elem_of_union|(t' & Ht' & Heq)].
      * right. exists t0. split; [by left | done].
      * by left.
      * right. exists t'. split; [by right | done].
Qed.

End Batches.

(** C5: the Candidate Filter admits a candidate if and only if its age is
    present, its age is at most 24 (hours) and its maker count is at least
    7000; a candidate without an age is rejected whatever its other fields.
    On the batch: a one-item batch yields that item's token when the item
    is admitted and nothing otherwise, every token a batch yields comes from
    an admitted item of it, and every admitted item has its symbol among the
    tokens yielded. *)
Theorem candidate_filter_admits_iff :
  (∀ (age : option Q) (maker_count : Z),
     NewPairsTracker.admitted age maker_count = true
     ↔ ∃ a, age = Some a ∧ (a <= 24)%Q ∧ 7000 <= maker_count)
  ∧ (∀ maker_count : Z, NewPairsTracker.admitted None maker_count = false)
  ∧ (∀ it : NewPairsTracker.item,
       NewPairsTracker.get_filtered_pairs (Ok [it])
       = Ok (if NewPairsTracker.admitted (NewPairsTracker.item_age it)
                    (NewPairsTracker.item_makerCount it)
             then [NewPairsTracker.token_of_item (Batch.canonical_symbol it) it]
             else []))
  ∧ (∀ (items : list NewPairsTracker.item) (out : list NewPairsTracker.token),
       NewPairsTracker.get_filtered_pairs (Ok items) = Ok out →
       (∀ t, t ∈ out →
          ∃ it, it ∈ items
                ∧ NewPairsTracker.admitted (NewPairsTracker.item_age it)
                    (NewPairsTracker.item_makerCount it) = true
                ∧ t = NewPairsTracker.token_of_item (Batch.canonical_symbol it) it)
       ∧ (∀ it, it ∈ items →
            NewPairsTracker.admitted (NewPairsTracker.item_age it)
              (NewPairsTracker.item_makerCount it) = true →
            ∃ t, t ∈ out
                 ∧ NewPairsTracker.token_symbol t = Batch.canonical_symbol it)).
Proof.
  split; [apply admitted_true|]. split; [done|]. split.
  - intros it. rewrite get_filtered_pairs_first_seen_wins. simpl.
    destruct (NewPairsTracker.admitted _ _); [|done]. simpl.
    by rewrite decide_False by apply not_elem_of_empty.
  - intros items out. rewrite get_filtered_pairs_first_seen_wins.
    intros [= <-]. split.
    + intros t Ht. apply admitted_candidates_elem.
      eapply elem_of_sublist; [done | apply first_seen_wins_sublist].
    + intros it Hin Hadm.
      destruct (first_seen_wins_covers ∅
                  (Batch.admitted_candidates items)
                  (NewPairsTracker.token_of_item (Batch.canonical_symbol it) it))
        as [Hempty|(t & Ht & Heq)].
      * apply admitted_candidates_elem. by exists it.
      * by apply not_elem_of_empty in Hempty.
      * by exists t.
Qed.

Lemma candidate_filter_admits_iff_witness :
  (∃ a : Q, Some (10 # 1) = Some a ∧ (a <= 24)%Q ∧ 7000 <= 8000)
  ∧ NewPairsTracker.admitted (Some (10 # 1)) 8000 = true.
Proof.
  assert (∃ a : Q, Some (10 # 1) = Some a ∧ (a <= 24)%Q ∧ 7000 <= 8000) as H.
  { exists (10 # 1). split; [reflexivity|]. split; [by vm_compute | lia]. }
  split; [exact H|].
  destruct candidate_filter_admits_iff as [Hiff _].
  apply Hiff. exact H.
Defined.

(** C2: the deduplicated output of a discovery batch has no two entries
    with the same canonical symbol; it is the sequence of the admitted
    candidates from which the later entries of an already seen symbol are
    dropped, the first one being kept, so that the survivors stand in the
    relative order of the batch; a duplicate is dropped without an error:
    the function returns. *)
Theorem deduplicated_batch (items : list NewPairsTracker.item) :
  ∃ out : list NewPairsTracker.token,
    NewPairsTracker.get_filtered_pairs (Ok items) = Ok out
    ∧ NoDup (NewPairsTracker.token_symbol <$> out)
    ∧ out `sublist_of` Batch.admitted_candidates items
    ∧ (∀ t : NewPairsTracker.token,
         t ∈ out
         ↔ ∃ i : nat,
             Batch.admitted_candidates items !! i = Some t
             ∧ (∀ (j : nat) (t' : NewPairsTracker.token),
                  (j < i)%nat →
                  Batch.admitted_candidates items !! j = Some t' →
                  NewPairsTracker.token_symbol t'
                  ≠ NewPairsTracker.token_symbol t)).
Proof.
  exists (Batch.first_seen_wins ∅ (Batch.admitted_candidates items)).
  split; [apply get_filtered_pairs_first_seen_wins|].
  split; [apply first_seen_wins_NoDup|].
  split; [apply first_seen_wins_sublist|].
  intros t. rewrite first_seen_wins_elem. split.
  - intros (i & Hi & _ & Hbefore). by exists i.
  - intros (i & Hi & Hbefore). exists i.
    split; [done|]. split; [apply not_elem_of_empty | done].
Qed.

(** ** Token Store *)

Section Store.
Import NewPairsTracker.

Lemma store_tokens_snoc (now : Z) (tokens : list token) (tok : token)
    (db : gmap string row) :
  store_tokens now (tokens ++ [tok]) db
  = insert_or_replace now tok (store_tokens now tokens db).
Proof. unfold store_tokens. by rewrite foldl_snoc. Qed.

(** A symbol that no token of the call has keeps its row. *)
Lemma store_tokens_lookup_other (now : Z) (tokens : list token)
    (db : gmap string row) (s : string) :
  s ∉ token_symbol <$> tokens →
  store_tokens now tokens db !! s = db !! s.
Proof.
  induction tokens as [|tok tokens IH] using rev_ind; [done|].
  rewrite fmap_app, not_elem_of_app. simpl.
  rewrite not_elem_of_cons. intros [Hnin [Hne _]].
  rewrite store_tokens_snoc. unfold insert_or_replace.
  rewrite lookup_insert_ne by done. by apply IH.
Qed.

(** A symbol that a token of the call has holds the row written from the
    last such token. *)
Lemma store_tokens_lookup_some (now : Z) (tokens : list token)
    (db : gmap string row) (tok : token) :
  tok ∈ tokens →
  ∃ tok', tok' ∈ tokens
          ∧ token_symbol tok' = token_symbol tok
          ∧ store_tokens now tokens db !! token_symbol tok
            = Some (inserted_row now tok').
Proof.
  induction tokens as [|t tokens IH] using rev_ind.
  - by intros ?%elem_of_nil.
  - intros Hin. rewrite store_tokens_snoc. unfold insert_or_replace.
    destruct (decide (token_symbol t = token_symbol tok)) as [Heq|Hne].
    + exists t. rewrite elem_of_app, list_elem_of_singleton.
      split; [by right|]. split; [done|].
      by rewrite Heq, lookup_insert_eq.
    + apply elem_of_app in Hin as [Hin|Hin%list_elem_of_singleton];
        [|congruence].
      destruct (IH Hin) as (tok' & Hin' & Hsym & Hlook).
      exists tok'. rewrite elem_of_app. split; [by left|]. split; [done|].
      by rewrite lookup_insert_ne.
Qed.

Lemma NoDup_symbols_eq (tokens : list token) (t1 t2 : token) :
  NoDup (token_symbol <$> tokens) →
  t1 ∈ tokens → t2 ∈ tokens → token_symbol t1 = token_symbol t2 → t1 = t2.
Proof.
  induction tokens as [|t tokens IH]; [by intros _ ?%elem_of_nil|].
  rewrite fmap_cons, NoDup_cons.
  intros [Hnin Hnd] [->|H1]%elem_of_cons [->|H2]%elem_of_cons Heq;
    [done| | |by apply IH].
  - exfalso. apply Hnin. rewrite Heq. by apply list_elem_of_fmap_2.
  - exfalso. apply Hnin. rewrite <- Heq. by apply list_elem_of_fmap_2.
Qed.

End Store.

(** C1 (as the code has it): when a token is already in the store, a later
    upsert of the same symbol (in a call whose tokens have distinct
    symbols, as those of [get_filtered_pairs] have) replaces every tracked
    field (name, address, age, volume, maker count, liquidity, market cap,
    dex URL, price change) by the value of the new discovery, and the
    creation timestamp as well: it becomes the instant of that upsert,
    truncated to the second.  The rows of the other symbols are left as
    they are. *)
Theorem store_tokens_replaces_row (now : Z)
    (tokens : list NewPairsTracker.token) (db : gmap string row)
    (tok : NewPairsTracker.token) (old : row) :
  db !! NewPairsTracker.token_symbol tok = Some old →
  NoDup (NewPairsTracker.token_symbol <$> tokens) →
  tok ∈ tokens →
  (∃ r : row,
     NewPairsTracker.store_tokens now tokens db
       !! NewPairsTracker.token_symbol tok = Some r
     ∧ row_token_name r = NewPairsTracker.token_name tok
     ∧ row_address r = NewPairsTracker.address tok
     ∧ row_age_hours r = NewPairsTracker.age_hours tok
     ∧ row_volume_usd r = NewPairsTracker.volume_usd tok
     ∧ row_maker_count r = NewPairsTracker.maker_count tok
     ∧ row_liquidity_usd r = NewPairsTracker.liquidity_usd tok
     ∧ row_market_cap_usd r = NewPairsTracker.market_cap_usd tok
     ∧ row_dex_url r
       = "https://dexscreener.com/solana/" +:+ NewPairsTracker.address tok
     ∧ row_priceChange1h r = NewPairsTracker.priceChange1h tok
     ∧ row_created_at r = CURRENT_TIMESTAMP now)
  ∧ (∀ s : string,
       s ∉ NewPairsTracker.token_symbol <$> tokens →
       NewPairsTracker.store_tokens now tokens db !! s = db !! s).
Proof.
  intros _ Hnd Hin. split.
  - destruct (store_tokens_lookup_some now tokens db tok Hin)
      as (tok' & Hin' & Hsym & Hlook).
    assert (tok' = tok) as -> by by eapply NoDup_symbols_eq.
    exists (NewPairsTracker.inserted_row now tok).
    split; [done|]. by repeat split.
  - intros s Hs. by apply store_tokens_lookup_other.
Qed.

Lemma store_tokens_replaces_row_witness :
  row_maker_count
    <$> NewPairsTracker.store_tokens (hours 1) [xyz_later] db_first !! "$XYZ"
  = Some 9500.
Proof.
  assert (db_first !! "$XYZ"
          = Some (NewPairsTracker.inserted_row 0 xyz_first)) as Hold
    by by vm_compute.
  assert (NoDup (NewPairsTracker.token_symbol <$> [xyz_later])) as Hnd
    by (apply NoDup_singleton).
  assert (xyz_later ∈ [xyz_later]) as Hin by constructor.
  destruct (store_tokens_replaces_row (hours 1) [xyz_later] db_first xyz_later
              _ Hold Hnd Hin) as [(r & Hr & _ & _ & _ & _ & Hm & _) _].
  change (NewPairsTracker.token_symbol xyz_later) with "$XYZ" in Hr.
  rewrite Hr. simpl. by rewrite Hm.
Defined.

(** The creation timestamp of [$XYZ], first stored at instant 0, is that of
    the later upsert once the symbol is upserted again one hour later. *)
Lemma upsert_resets_created_at :
  row_created_at <$> db_first !! "$XYZ" = Some 0
  ∧ row_created_at
      <$> NewPairsTracker.store_tokens (hours 1) [xyz_later] db_first !! "$XYZ"
    = Some 3600000000
  ∧ row_maker_count
      <$> NewPairsTracker.store_tokens (hours 1) [xyz_later] db_first !! "$XYZ"
    = Some 9500.
Proof. by vm_compute. Qed.

(** C9: when a token in the store has a wom score and a tweet count, an
    upsert of its symbol leaves both NULL: the replacing insert does not
    list these columns. *)
Theorem store_tokens_erases_score (now : Z)
    (tokens : list NewPairsTracker.token) (db : gmap string row)
    (tok : NewPairsTracker.token) (old : row) (wom_score : Q)
    (tweet_count : Z) :
  db !! NewPairsTracker.token_symbol tok = Some old →
  row_wom_score old = Some wom_score →
  row_tweet_count old = Some tweet_count →
  tok ∈ tokens →
  ∃ r : row,
    NewPairsTracker.store_tokens now tokens db
      !! NewPairsTracker.token_symbol tok = Some r
    ∧ row_wom_score r = None
    ∧ row_tweet_count r = None.
Proof.
  intros _ _ _ Hin.
  destruct (store_tokens_lookup_some now tokens db tok Hin)
    as (tok' & _ & _ & Hlook).
  by exists (NewPairsTracker.inserted_row now tok').
Qed.

Lemma store_tokens_erases_score_witness :
  (row_wom_score <$> db_scored !! "$XYZ" = Some (Some (4 # 5))
   ∧ row_tweet_count <$> db_scored !! "$XYZ" = Some (Some 2))
  ∧ ∃ r : row,
      NewPairsTracker.store_tokens (hours 1) [xyz_later] db_scored !! "$XYZ"
      = Some r
      ∧ row_wom_score r = None
      ∧ row_tweet_count r = None.
Proof.
  split; [by vm_compute|].
  eapply (store_tokens_erases_score (hours 1) [xyz_later] db_scored xyz_later
            _ (4 # 5) 2).
  - by vm_compute.
  - reflexivity.
  - reflexivity.
  - constructor.
Defined.

(** ** Eviction *)

(** C3: eviction at instant [now] removes exactly the rows whose creation
    timestamp is at or before [now] minus 24 hours: a row stays, unchanged,
    if and only if it was there and its creation timestamp is later than
    that; in particular a row with a NULL age and a recent creation
    timestamp stays. *)
Theorem delete_old_tokens_exact (now : Z) (db : gmap string row) :
  (∀ (s : string) (r : row),
     WomMain.delete_old_tokens now db !! s = Some r
     ↔ db !! s = Some r ∧ now - hours 24 < row_created_at r)
  ∧ (∀ (s : string) (r : row),
       db !! s = Some r →
       (WomMain.delete_old_tokens now db !! s = None
        ↔ row_created_at r <= now - hours 24))
  ∧ (∀ (s : string) (r : row),
       db !! s = Some r →
       row_age_hours r = None →
       now - hours 24 < row_created_at r →
       WomMain.delete_old_tokens now db !! s = Some r).
Proof.
  unfold WomMain.delete_old_tokens. split; [|split].
  - intros s r. rewrite map_lookup_filter_Some. simpl. split.
    + intros [Hs Hr]. split; [done | lia].
    + intros [Hs Hr]. split; [done | lia].
  - intros s r Hs. rewrite map_lookup_filter_None. split.
    + intros [Hnone|Hall]; [congruence|].
      specialize (Hall r Hs). simpl in Hall. lia.
    + intros Hr. right. intros r' Hs'. simpl.
      assert (r' = r) as -> by congruence. lia.
  - intros s r Hs _ Hr. apply map_lookup_filter_Some. simpl.
    split; [done | lia].
Qed.

Lemma delete_old_tokens_exact_witness :
  (db_unaged !! "$NEW" = Some row_unaged
   ∧ row_age_hours row_unaged = None
   ∧ hours 48 - hours 24 < row_created_at row_unaged)
  ∧ WomMain.delete_old_tokens (hours 48) db_unaged !! "$NEW" = Some row_unaged.
Proof.
  assert (db_unaged !! "$NEW" = Some row_unaged) as Hs by by vm_compute.
  assert (hours 48 - hours 24 < row_created_at row_unaged) as Hr
    by by vm_compute.
  split; [done|].
  destruct (delete_old_tokens_exact (hours 48) db_unaged) as (_ & _ & H).
  by apply H.
Defined.

(** The age-based statement of the older variant keeps a row without an
    age as well, but it parts from the timestamp-based eviction on a row
    whose age field says 24 hours or more while its timestamp is recent. *)
Remark delete_where_age_hours_ge_24_unaged :
  CryptoLensMain.delete_where_age_hours_ge_24 db_unaged !! "$NEW"
  = Some row_unaged
  ∧ CryptoLensMain.delete_where_age_hours_ge_24
      (<[ "$OLD" := NewPairsTracker.inserted_row (hours 47) xyz_aged ]> ∅)
    !! "$OLD" = None
  ∧ WomMain.delete_old_tokens (hours 48)
      (<[ "$OLD" := NewPairsTracker.inserted_row (hours 47) xyz_aged ]> ∅)
    !! "$OLD" = Some (NewPairsTracker.inserted_row (hours 47) xyz_aged).
Proof. split; [by vm_compute|]. split; [by vm_compute|]. by vm_compute. Qed.

(** ** Score Aggregator *)

Section Aggregator.
Local Open Scope Q_scope.

Lemma foldl_Qplus (a : Q) (l : list Q) :
  foldl Qplus a l == a + foldr Qplus 0 l.
Proof.
  revert a. induction l as [|x l IH]; intros a; simpl.
  - ring.
  - rewrite IH. ring.
Qed.

(** [sum] adds up the scores. *)
Lemma py_sum_foldr (l : list Q) : TwitterAnalysis.py_sum l == foldr Qplus 0 l.
Proof. unfold TwitterAnalysis.py_sum. rewrite foldl_Qplus. ring. Qed.

End Aggregator.

(** C4: on an empty sequence of bullishness values the Score Aggregator
    returns [None] (no signal), which is no number; on a non-empty sequence
    it returns the arithmetic mean (the sum of the values over their count)
    rounded to two decimal places: a whole number of hundredths within half
    a hundredth of the mean; on [0.8, 0.6, 0.4] it returns 0.60; and a
    cashtag none of whose posts qualifies gets [None] in its line. *)
Theorem average_of_mean_or_none :
  TwitterAnalysis.average_of [] = TwitterAnalysis.NoBullishness
  ∧ (∀ q : Q, TwitterAnalysis.average_of [] ≠ TwitterAnalysis.Average q)
  ∧ (∀ (score : Q) (scores : list Q),
       let mean := (foldr Qplus 0 (score :: scores)
                    / inject_Z (Z.of_nat (length (score :: scores))))%Q in
       ∃ avg : Q,
         TwitterAnalysis.average_of (score :: scores)
         = TwitterAnalysis.Average avg
         ∧ avg = py_round2 mean
         ∧ (∃ cents : Z, avg == inject_Z cents / 100)%Q
         ∧ (mean - (1 # 200) <= avg <= mean + (1 # 200))%Q)
  ∧ TwitterAnalysis.average_of [8 # 10; 6 # 10; 4 # 10]%Q
    = TwitterAnalysis.Average (3 # 5)
  ∧ (∀ (probs : string → Q * Q * Q) (preprocess_tweet : string → string)
       (is_relevant_tweet : string → bool)
       (call_actor : string → res (list TwitterAnalysis.tweet))
       (cashtag : string) (items : list TwitterAnalysis.tweet),
       call_actor (TwitterAnalysis.search_term cashtag) = Ok items →
       TwitterAnalysis.score_items probs preprocess_tweet is_relevant_tweet
         items [] = Ok [] →
       TwitterAnalysis.analyze_cashtag probs preprocess_tweet
         is_relevant_tweet call_actor cashtag
       = {| TwitterAnalysis.Cashtag := cashtag;
            TwitterAnalysis.Bullishness := TwitterAnalysis.NoBullishness |}).
Proof.
  split; [done|]. split; [done|]. split; [|split].
  - intros score scores mean.
    exists (py_round2 (TwitterAnalysis.py_sum (score :: scores)
                       / inject_Z (Z.of_nat (length (score :: scores))))).
    split; [done|].
    assert (py_round2 (TwitterAnalysis.py_sum (score :: scores)
                       / inject_Z (Z.of_nat (length (score :: scores))))
            = py_round2 mean) as Heq.
    { apply py_round2_comp. unfold mean. by rewrite py_sum_foldr. }
    split; [done|]. rewrite Heq. split.
    + exists (round_half_even (mean * 100)). apply py_round2_cents.
    + apply py_round2_near.
  - by vm_compute.
  - intros probs preprocess_tweet is_relevant_tweet call_actor cashtag items
      Hcall Hscores.
    unfold TwitterAnalysis.analyze_cashtag. rewrite Hcall. simpl.
    by rewrite Hscores.
Qed.

Lemma average_of_mean_or_none_witness :
  TwitterAnalysis.analyze_cashtag (fun _ => (1 # 2, 1 # 4, 1 # 4)%Q)
    (fun t => t) (fun _ => true) (fun _ => Ok []) "$XYZ"
  = {| TwitterAnalysis.Cashtag := "$XYZ";
       TwitterAnalysis.Bullishness := TwitterAnalysis.NoBullishness |}.
Proof.
  destruct average_of_mean_or_none as (_ & _ & _ & _ & H).
  apply (H _ _ _ (fun _ => Ok []) "$XYZ" []); reflexivity.
Defined.

(** What [get_tweets] answers when the analysis it calls has no
    ["wom_score"] entry is the number 0. *)
Remark get_tweets_wom_score_default :
  WomMain.get_tweets_wom_score None = Some 0%Q.
Proof. reflexivity. Qed.

(** ** Sentiment Scorer *)

Section Scorer.
Local Open Scope Q_scope.

Lemma ratio_unit (b r : Q) : 0 <= b → 0 <= r → ¬ b + r == 0 → 0 <= b / (b + r) <= 1.
Proof.
  intros Hb Hr Hne.
  assert (0 < b + r) as Hpos.
  { destruct (Qlt_le_dec 0 (b + r)) as [|Hle]; [done|].
    exfalso. apply Hne. lra. }
  split.
  - apply Qle_shift_div_l; [done | lra].
  - apply Qle_shift_div_r; [done | lra].
Qed.

End Scorer.

(** C7 (as the code has it): for a text whose three class probabilities
    are non-negative and sum to 1, the Sentiment Scorer takes the bullish
    and the bearish probability as percentages rounded to two decimals
    and, when these are not both zero, returns their ratio bullish /
    (bullish + bearish) rounded to two decimals; the value lies in [0, 1],
    is within half a hundredth of that ratio, and the neutral probability
    does not enter it. *)
Theorem calculate_bullishness_rounded_ratio
    (probs : string → Q * Q * Q) (tweet_text : string)
    (p_bullish p_neutral p_bearish : Q) :
  probs tweet_text = (p_bullish, p_neutral, p_bearish) →
  (0 <= p_bullish)%Q → (0 <= p_neutral)%Q → (0 <= p_bearish)%Q →
  (p_bullish + p_neutral + p_bearish == 1)%Q →
  let bullish_prob := py_round2 (p_bullish * 100) in
  let bearish_prob := py_round2 (p_bearish * 100) in
  let ratio := (bullish_prob / (bullish_prob + bearish_prob))%Q in
  ¬ (bullish_prob + bearish_prob == 0)%Q →
  ∃ v : Q,
    TwitterAnalysis.calculate_bullishness probs tweet_text = Ok v
    ∧ v = py_round2 ratio
    ∧ (0 <= v <= 1)%Q
    ∧ (ratio - (1 # 200) <= v <= ratio + (1 # 200))%Q.
Proof.
  intros Hp Hb _ Hr _ bullish_prob bearish_prob ratio Hne.
  exists (py_round2 ratio). split.
  - unfold TwitterAnalysis.calculate_bullishness. rewrite Hp.
    fold bullish_prob bearish_prob.
    destruct (Qeq_bool (bullish_prob + bearish_prob) 0) eqn:Hz; [|done].
    by apply Qeq_bool_iff in Hz.
  - split; [done|]. split; [|apply py_round2_near].
    apply py_round2_unit, ratio_unit; [| |done].
    + apply py_round2_nonneg. lra.
    + apply py_round2_nonneg. lra.
Qed.

Lemma calculate_bullishness_rounded_ratio_witness :
  TwitterAnalysis.calculate_bullishness
    (fun _ => (6 # 10, 2 # 10, 2 # 10)%Q) "gm"
  = Ok (3 # 4).
Proof.
  destruct (calculate_bullishness_rounded_ratio
              (fun _ => (6 # 10, 2 # 10, 2 # 10)%Q) "gm"
              (6 # 10) (2 # 10) (2 # 10) eq_refl)
    as (v & Hv & Heq & _).
  - by vm_compute.
  - by vm_compute.
  - by vm_compute.
  - by vm_compute.
  - by vm_compute.
  - rewrite Hv, Heq. by vm_compute.
Defined.

(** On the probabilities (1/2, 1/4, 1/4) the scorer returns 0.67, which is
    not the ratio 2/3; on (1/100000, 99998/100000, 1/100000) both
    percentages round to zero and no value is returned. *)
Lemma calculate_bullishness_not_the_ratio :
  TwitterAnalysis.calculate_bullishness
    (fun _ => (1 # 2, 1 # 4, 1 # 4)%Q) "gm" = Ok (67 # 100)
  ∧ ¬ (67 # 100 == (1 # 2) / ((1 # 2) + (1 # 4)))%Q
  ∧ TwitterAnalysis.calculate_bullishness
      (fun _ => (1 # 100000, 99998 # 100000, 1 # 100000)%Q) "gm"
    = Raise ZeroDivisionError.
Proof. split; [by vm_compute|]. split; [by vm_compute | by vm_compute]. Qed.

(** ** Scoring a sequence of tokens *)

Section Cycle.

Variable probs : string → Q * Q * Q.
Variable preprocess_tweet : string → string.
Variable is_relevant_tweet : string → bool.
Variable call_actor : string → res (list TwitterAnalysis.tweet).

Let analyze_cashtag :=
  TwitterAnalysis.analyze_cashtag probs preprocess_tweet is_relevant_tweet
    call_actor.

(** The loop appends the line of each cashtag, in order. *)
Lemma analyze_loop_fmap (cashtags : list string)
    (data : list TwitterAnalysis.line) :
  TwitterAnalysis.analyze_loop probs preprocess_tweet is_relevant_tweet
    call_actor cashtags data
  = data ++ (analyze_cashtag <$> cashtags).
Proof.
  revert data. induction cashtags as [|c rest IH]; intros data; simpl.
  - by rewrite app_nil_r.
  - rewrite IH. by rewrite <- app_assoc.
Qed.

Lemma analyze_cashtags_fmap (cashtags : list string) :
  TwitterAnalysis.analyze_cashtags probs preprocess_tweet is_relevant_tweet
    call_actor cashtags
  = analyze_cashtag <$> cashtags.
Proof. unfold TwitterAnalysis.analyze_cashtags. by rewrite analyze_loop_fmap. Qed.

Lemma analyze_cashtag_Cashtag (cashtag : string) :
  TwitterAnalysis.Cashtag (analyze_cashtag cashtag) = cashtag.
Proof.
  unfold analyze_cashtag, TwitterAnalysis.analyze_cashtag.
  by destruct (bind _ _).
Qed.

End Cycle.

Section ScheduledJob.

Variable R : Type.
Variable fetch_and_analyze : string → gmap string row → res R * gmap string row.

(** A loop that ends without an exception has one more result per token. *)
Lemma score_loop_length (tokens : list NewPairsTracker.token)
    (results results' : list R) (db db' : gmap string row) :
  WomMain.score_loop R fetch_and_analyze tokens results db = (Ok results', db') →
  length results' = (length results + length tokens)%nat.
Proof.
  revert results db. induction tokens as [|t rest IH]; intros results db; simpl.
  - intros [= <- _]. lia.
  - destruct (fetch_and_analyze _ db) as [[r|e] db1]; [|done].
    intros Hloop. apply IH in Hloop. rewrite length_app in Hloop.
    simpl in Hloop. lia.
Qed.

End ScheduledJob.

(** C8 (as the code has it): in [analyze_cashtags] a scoring failure for
    one cashtag is caught for that cashtag and recorded as its line, and
    the other cashtags are scored all the same: the result has one line per
    input cashtag, in input order, each the line of its own cashtag alone,
    and the line of a cashtag whose feed call raises is the error line.
    The scheduled job, when it completes, reports the number of tokens of
    the batch as processed and nothing else: no count of failures. *)
Theorem scoring_one_line_per_cashtag :
  (∀ (probs : string → Q * Q * Q) (preprocess_tweet : string → string)
     (is_relevant_tweet : string → bool)
     (call_actor : string → res (list TwitterAnalysis.tweet))
     (cashtags : list string),
     let data :=
       TwitterAnalysis.analyze_cashtags probs preprocess_tweet
         is_relevant_tweet call_actor cashtags in
     length data = length cashtags
     ∧ TwitterAnalysis.Cashtag <$> data = cashtags
     ∧ (∀ (i : nat) (cashtag : string),
          cashtags !! i = Some cashtag →
          data !! i
          = Some (TwitterAnalysis.analyze_cashtag probs preprocess_tweet
                    is_relevant_tweet call_actor cashtag))
     ∧ (∀ (cashtag : string) (e : exn),
          cashtag ∈ cashtags →
          call_actor (TwitterAnalysis.search_term cashtag) = Raise e →
          {| TwitterAnalysis.Cashtag := cashtag;
             TwitterAnalysis.Bullishness := TwitterAnalysis.Error |} ∈ data))
  ∧ (∀ (R : Type)
       (fetch_and_analyze : string → gmap string row → res R * gmap string row)
       (key : string) (SCHEDULE_KEY : option string) (t_delete t_store : Z)
       (feed : res (list NewPairsTracker.item)) (db db' : gmap string row)
       (report : WomMain.job_report),
       WomMain.run_scheduled_job R fetch_and_analyze key SCHEDULE_KEY
         t_delete t_store feed db = (Ok report, db') →
       WomMain.message report = "Job completed"
       ∧ ∃ tokens : list NewPairsTracker.token,
           NewPairsTracker.get_filtered_pairs feed = Ok tokens
           ∧ WomMain.processed_tokens report = length tokens).
Proof.
  split.
  - intros probs preprocess_tweet is_relevant_tweet call_actor cashtags data.
    subst data. rewrite analyze_cashtags_fmap.
    split; [by rewrite length_fmap|]. split; [|split].
    + rewrite <- list_fmap_compose.
      rewrite <- (list_fmap_id cashtags) at 2.
      apply list_fmap_ext. intros i c _. apply analyze_cashtag_Cashtag.
    + intros i cashtag Hi. by rewrite list_lookup_fmap, Hi.
    + intros cashtag e Hin Hcall. apply list_elem_of_fmap.
      exists cashtag. split; [|done].
      unfold TwitterAnalysis.analyze_cashtag. by rewrite Hcall.
  - intros R fetch_and_analyze key SCHEDULE_KEY t_delete t_store feed db db'
      report.
    unfold WomMain.run_scheduled_job, NewPairsTracker.fetch_tokens.
    destruct (decide _) as [Hkey|Hkey]; [|done].
    destruct (NewPairsTracker.get_filtered_pairs feed) as [tokens|e]; [|done].
    destruct (WomMain.score_loop _ _ _ _ _) as [[results|e'] db3] eqn:Hloop;
      [|done].
    intros [= <- _]. split; [done|]. exists tokens. split; [done|].
    apply score_loop_length in Hloop. simpl in *. lia.
Qed.

Lemma scoring_one_line_per_cashtag_witness :
  {| TwitterAnalysis.Cashtag := "$AAA";
     TwitterAnalysis.Bullishness := TwitterAnalysis.Error |}
  ∈ TwitterAnalysis.analyze_cashtags (fun _ => (1 # 2, 1 # 4, 1 # 4)%Q)
      (fun t => t) (fun _ => true)
      (fun term => if decide (term = "$AAA")
                   then Raise (RuntimeError "post feed error") else Ok [])
      ["$AAA"; "$BBB"].
Proof.
  destruct scoring_one_line_per_cashtag as [H _].
  destruct (H (fun _ => (1 # 2, 1 # 4, 1 # 4)%Q) (fun t => t) (fun _ => true)
              (fun term => if decide (term = "$AAA")
                           then Raise (RuntimeError "post feed error")
                           else Ok [])
              ["$AAA"; "$BBB"]) as (_ & _ & _ & Herr).
  apply (Herr "$AAA" (RuntimeError "post feed error")).
  - by constructor.
  - by vm_compute.
Defined.

(** A scheduled job over [$AAA] and [$BBB] in which the scoring of [$AAA]
    raises: the job answers with the error 500 and no counts, and [$BBB],
    which comes after, is left without a score; when no scoring raises, the
    job reports two processed tokens and [$BBB] is scored. *)
Lemma scheduled_job_aborts_on_failure :
  (WomMain.run_scheduled_job string scoring_fails_on_aaa "k" (Some "k")
     0 0 (Ok [item_aaa; item_bbb]) ∅).1
  = Raise (HTTPException 500 "Scheduled job failed.")
  ∧ row_wom_score
      <$> (WomMain.run_scheduled_job string scoring_fails_on_aaa "k" (Some "k")
             0 0 (Ok [item_aaa; item_bbb]) ∅).2 !! "$BBB"
    = Some None
  ∧ (WomMain.run_scheduled_job string scoring_ok "k" (Some "k")
       0 0 (Ok [item_aaa; item_bbb]) ∅).1
    = Ok {| WomMain.message := "Job completed";
            WomMain.processed_tokens := 2 |}
  ∧ row_wom_score
      <$> (WomMain.run_scheduled_job string scoring_ok "k" (Some "k")
             0 0 (Ok [item_aaa; item_bbb]) ∅).2 !! "$BBB"
    = Some (Some (4 # 5)%Q).
Proof. repeat split; by vm_compute. Qed.

(** * Further properties of the code *)

(** ** Tokens of a label *)

Section Tokens.

Lemma append_cons (c : ascii) (s1 s2 : string) :
  String c s1 +:+ s2 = String c (s1 +:+ s2).
Proof. reflexivity. Qed.

Lemma append_empty_r (s : string) : s +:+ "" = s.
Proof.
  induction s as [|c s IH]; [done|]. by rewrite append_cons, IH.
Qed.

Lemma has_space_app (s1 s2 : string) :
  has_space (s1 +:+ s2) = has_space s1 || has_space s2.
Proof.
  induction s1 as [|c s1 IH]; [done|].
  rewrite append_cons. simpl. by rewrite IH, orb_assoc.
Qed.

Lemma has_space_rev_app (s1 s2 : string) :
  has_space (String.rev_app s1 s2) = has_space s1 || has_space s2.
Proof.
  revert s2. induction s1 as [|c s1 IH]; intros s2; simpl; [done|].
  rewrite IH. simpl. destruct (py_isspace c), (has_space s1); done.
Qed.

Lemma rev_app_rev_app (s1 s2 s3 : string) :
  String.rev_app (String.rev_app s1 s2) s3 = String.rev_app s2 (s1 +:+ s3).
Proof.
  revert s2 s3. induction s1 as [|c s1 IH]; intros s2 s3; [done|].
  rewrite append_cons. simpl. by rewrite IH.
Qed.

Lemma string_rev_involutive (s : string) : String.rev (String.rev s) = s.
Proof.
  unfold String.rev. rewrite rev_app_rev_app. simpl.
  apply append_empty_r.
Qed.

Lemma py_lstrip_no_space (s : string) : has_space s = false → py_lstrip s = s.
Proof.
  destruct s as [|c s]; simpl; [done|].
  intros [Hc _]%orb_false_elim. by rewrite Hc.
Qed.

(** Stripping a string without whitespace leaves it as it is. *)
Lemma py_strip_no_space (s : string) : has_space s = false → py_strip s = s.
Proof.
  intros Hs. unfold py_strip. rewrite (py_lstrip_no_space s Hs).
  rewrite py_lstrip_no_space; [apply string_rev_involutive|].
  unfold String.rev. rewrite has_space_rev_app. by rewrite Hs.
Qed.

(** The parts of a split are not empty and hold no whitespace. *)
Lemma py_split_go_parts (s cur p : string) :
  has_space cur = false →
  p ∈ py_split_go s cur →
  p ≠ "" ∧ has_space p = false.
Proof.
  revert cur. induction s as [|c s IH]; intros cur Hcur; simpl.
  - destruct (decide (cur = "")); [by intros ?%elem_of_nil|].
    by intros ->%list_elem_of_singleton.
  - destruct (py_isspace c) eqn:Hc.
    + destruct (decide (cur = "")).
      * by apply IH.
      * intros [->|Hp]%elem_of_cons; [done|]. by apply (IH "").
    + apply IH. rewrite has_space_app. simpl. by rewrite Hcur, Hc.
Qed.

Lemma py_split_parts (s p : string) :
  p ∈ py_split s → p ≠ "" ∧ has_space p = false.
Proof. by apply py_split_go_parts. Qed.

End Tokens.

(** X1: the symbol of a label is, behind the marker [$], the second token
    of the label, or the third one when the second is a pool-type marker;
    the token is taken as it is (stripping changes nothing), so the symbol
    is never the bare marker and never holds whitespace. *)
Theorem extract_and_format_symbol_token (raw : string) :
  (∀ p : string,
     py_split raw !! 1%nat = Some p →
     p ∉ NewPairsTracker.pool_types →
     NewPairsTracker.extract_and_format_symbol (Some raw) = Ok ("$" +:+ p))
  ∧ (∀ marker p : string,
       py_split raw !! 1%nat = Some marker →
       marker ∈ NewPairsTracker.pool_types →
       py_split raw !! 2%nat = Some p →
       NewPairsTracker.extract_and_format_symbol (Some raw) = Ok ("$" +:+ p))
  ∧ ∃ sym : string,
      NewPairsTracker.extract_and_format_symbol (Some raw) = Ok ("$" +:+ sym)
      ∧ sym ≠ ""
      ∧ has_space sym = false.
Proof.
  assert (∀ (i : nat) (p : string),
            py_split raw !! i = Some p → p ≠ "" ∧ has_space p = false)
    as Hparts.
  { intros i p Hp. apply py_split_parts with raw.
    by eapply list_elem_of_lookup_2. }
  unfold NewPairsTracker.extract_and_format_symbol,
    NewPairsTracker.extract_and_format_symbol_try.
  split; [|split].
  - intros p Hp Hnot. rewrite Hp. simpl.
    rewrite (bool_decide_eq_false_2 _ Hnot), andb_false_r.
    destruct (Hparts _ _ Hp) as [_ Hsp]. by rewrite py_strip_no_space.
  - intros marker p Hm Hin Hp. rewrite Hm, Hp. simpl.
    rewrite (bool_decide_eq_true_2 _ Hin).
    rewrite bool_decide_eq_true_2
      by (apply lookup_lt_Some in Hm; lia).
    destruct (Hparts _ _ Hp) as [_ Hsp]. by rewrite py_strip_no_space.
  - destruct (_ && _).
    + destruct (py_split raw !! 2%nat) as [p|] eqn:Hp.
      * destruct (Hparts _ _ Hp) as [Hne Hsp]. exists p.
        by rewrite py_strip_no_space.
      * by exists "Unknown".
    + destruct (py_split raw !! 1%nat) as [p|] eqn:Hp.
      * destruct (Hparts _ _ Hp) as [Hne Hsp]. exists p.
        by rewrite py_strip_no_space.
      * by exists "Unknown".
Qed.

Lemma extract_and_format_symbol_token_witness :
  NewPairsTracker.extract_and_format_symbol (Some "Pump  CPMM   wif hat")
  = Ok "$wif".
Proof.
  destruct (extract_and_format_symbol_token "Pump  CPMM   wif hat")
    as (_ & H & _).
  apply (H "CPMM" "wif").
  - by vm_compute.
  - by vm_compute; right; right; left.
  - by vm_compute.
Defined.

(** ** Upserts and evictions on the table *)

Section Table.
Import NewPairsTracker.

(** The row a call leaves under a symbol of its tokens does not depend on
    the table the call started from. *)
Lemma store_tokens_lookup_batch (now : Z) (tokens : list token)
    (db1 db2 : gmap string row) (s : string) :
  s ∈ token_symbol <$> tokens →
  store_tokens now tokens db1 !! s = store_tokens now tokens db2 !! s.
Proof.
  induction tokens as [|t tokens IH] using rev_ind.
  - by intros ?%elem_of_nil.
  - rewrite fmap_app, elem_of_app. simpl. intros Hin.
    rewrite !store_tokens_snoc. unfold insert_or_replace.
    destruct (decide (token_symbol t = s)) as [<-|Hne].
    + by rewrite !lookup_insert_eq.
    + rewrite !lookup_insert_ne by done.
      destruct Hin as [Hin|Hin%list_elem_of_singleton]; [by apply IH|].
      congruence.
Qed.

Lemma store_tokens_dom (now : Z) (tokens : list token) (db : gmap string row) :
  dom (store_tokens now tokens db)
  = dom db ∪ list_to_set (token_symbol <$> tokens).
Proof.
  induction tokens as [|t tokens IH] using rev_ind.
  - simpl. by rewrite union_empty_r_L.
  - rewrite store_tokens_snoc. unfold insert_or_replace.
    rewrite dom_insert_L, IH, fmap_app, list_to_set_app_L. simpl.
    rewrite union_empty_r_L, (comm_L (∪) {[token_symbol t]}).
    by rewrite (assoc_L (∪)).
Qed.

Lemma CURRENT_TIMESTAMP_bounds (now : Z) :
  now - 1000000 < CURRENT_TIMESTAMP now <= now.
Proof.
  unfold CURRENT_TIMESTAMP.
  pose proof (Z.mul_div_le now 1000000 ltac:(lia)) as Hle.
  pose proof (Z.mod_pos_bound now 1000000 ltac:(lia)) as Hmod.
  pose proof (Z.div_mod now 1000000 ltac:(lia)) as Heq.
  lia.
Qed.

End Table.

(** X2: an upsert is idempotent at one instant: storing the same tokens a
    second time at the same instant leaves the table as the first call
    left it. *)
Theorem store_tokens_idempotent (now : Z)
    (tokens : list NewPairsTracker.token) (db : gmap string row) :
  NewPairsTracker.store_tokens now tokens
    (NewPairsTracker.store_tokens now tokens db)
  = NewPairsTracker.store_tokens now tokens db.
Proof.
  apply map_eq. intros s.
  destruct (decide (s ∈ NewPairsTracker.token_symbol <$> tokens)) as [Hin|Hnin].
  - by apply store_tokens_lookup_batch.
  - by rewrite !store_tokens_lookup_other.
Qed.

(** X3: an upsert never removes a symbol: the symbols of the table after
    the call are those it had before together with those of the tokens
    stored. *)
Theorem store_tokens_symbols (now : Z)
    (tokens : list NewPairsTracker.token) (db : gmap string row) :
  dom (NewPairsTracker.store_tokens now tokens db)
  = dom db ∪ list_to_set (NewPairsTracker.token_symbol <$> tokens).
Proof. apply store_tokens_dom. Qed.

(** X4: evictions compose: evicting at one instant and then at another is
    evicting once at the later of the two, in either order; so evicting
    twice at the same instant is evicting once, and an eviction only ever
    removes rows. *)
Theorem delete_old_tokens_compose (now1 now2 : Z) (db : gmap string row) :
  WomMain.delete_old_tokens now2 (WomMain.delete_old_tokens now1 db)
  = WomMain.delete_old_tokens (Z.max now1 now2) db
  ∧ WomMain.delete_old_tokens now1 (WomMain.delete_old_tokens now1 db)
    = WomMain.delete_old_tokens now1 db
  ∧ WomMain.delete_old_tokens now1 db ⊆ db.
Proof.
  assert (∀ a b,
            WomMain.delete_old_tokens b (WomMain.delete_old_tokens a db)
            = WomMain.delete_old_tokens (Z.max a b) db) as Hcomp.
  { intros a b. unfold WomMain.delete_old_tokens.
    apply map_eq. intros s. apply option_eq. intros r.
    rewrite !map_lookup_filter_Some. simpl. split.
    - intros [[Hs Ha] Hb]. split; [done | lia].
    - intros [Hs Hab]. split; [split; [done | lia] | lia]. }
  split; [apply Hcomp|]. split.
  - rewrite Hcomp. by rewrite Z.max_id.
  - unfold WomMain.delete_old_tokens. apply map_filter_subseteq.
Qed.

(** X5: [fetch_tokens] on a fetched batch returns the deduplicated admitted
    candidates and leaves, under the symbol of each, the row written from
    that (first seen) candidate, with no score and no tweet count; every
    other row of the table is as before.  When the feed fails the table is
    not touched. *)
Theorem fetch_tokens_stores_batch (now : Z)
    (items : list NewPairsTracker.item) (db : gmap string row) :
  ∃ (out : list NewPairsTracker.token) (db' : gmap string row),
    NewPairsTracker.fetch_tokens now (Ok items) db = (Ok out, db')
    ∧ out = Batch.first_seen_wins ∅ (Batch.admitted_candidates items)
    ∧ (∀ t : NewPairsTracker.token,
         t ∈ out →
         db' !! NewPairsTracker.token_symbol t
         = Some (NewPairsTracker.inserted_row now t))
    ∧ (∀ s : string,
         s ∉ NewPairsTracker.token_symbol <$> out → db' !! s = db !! s)
    ∧ (∀ e : exn,
         NewPairsTracker.fetch_tokens now (Raise e) db = (Raise e, db)).
Proof.
  set (out := Batch.first_seen_wins ∅ (Batch.admitted_candidates items)).
  exists out, (NewPairsTracker.store_tokens now out db).
  split.
  { unfold NewPairsTracker.fetch_tokens.
    rewrite get_filtered_pairs_first_seen_wins. fold out.
    by destruct out. }
  split; [done|]. split; [|split; [|done]].
  - intros t Ht.
    destruct (store_tokens_lookup_some now out db t Ht)
      as (t' & Ht' & Hsym & Hlook).
    assert (t' = t) as ->; [|done].
    eapply NoDup_symbols_eq; [apply first_seen_wins_NoDup|done..].
  - intros s Hs. by apply store_tokens_lookup_other.
Qed.

Lemma fetch_tokens_stores_batch_witness :
  (NewPairsTracker.fetch_tokens 0 (Ok [item_aaa; item_bbb]) db_scored).2
    !! "$XYZ"
  = db_scored !! "$XYZ".
Proof.
  destruct (fetch_tokens_stores_batch 0 [item_aaa; item_bbb] db_scored)
    as (out & db' & Heq & -> & _ & Hother & _).
  rewrite Heq. simpl. apply Hother.
  apply (bool_decide_unpack _). by vm_compute.
Defined.

(** X6: a row written at instant [t] outlives every eviction run less than
    24 hours minus one second after [t], and is removed by every eviction
    run 24 hours after [t] or later. *)
Theorem stored_token_time_to_live (t now : Z)
    (tok : NewPairsTracker.token) (db : gmap string row) :
  (now < t + hours 24 - 1000000 →
   WomMain.delete_old_tokens now (NewPairsTracker.store_tokens t [tok] db)
     !! NewPairsTracker.token_symbol tok
   = Some (NewPairsTracker.inserted_row t tok))
  ∧ (t + hours 24 <= now →
     WomMain.delete_old_tokens now (NewPairsTracker.store_tokens t [tok] db)
       !! NewPairsTracker.token_symbol tok
     = None).
Proof.
  pose proof (CURRENT_TIMESTAMP_bounds t) as Ht.
  unfold WomMain.delete_old_tokens. simpl.
  unfold NewPairsTracker.insert_or_replace. split.
  - intros Hnow. apply map_lookup_filter_Some.
    rewrite lookup_insert_eq. split; [done|]. simpl. lia.
  - intros Hnow. apply map_lookup_filter_None. right.
    intros r. rewrite lookup_insert_eq. intros [= <-]. simpl. lia.
Qed.

Lemma stored_token_time_to_live_witness :
  WomMain.delete_old_tokens (hours 23)
    (NewPairsTracker.store_tokens 0 [xyz_first] ∅) !! "$XYZ"
  = Some (NewPairsTracker.inserted_row 0 xyz_first)
  ∧ WomMain.delete_old_tokens (hours 24)
      (NewPairsTracker.store_tokens 0 [xyz_first] ∅) !! "$XYZ"
    = None.
Proof.
  destruct (stored_token_time_to_live 0 (hours 23) xyz_first ∅) as [Hkeep _].
  destruct (stored_token_time_to_live 0 (hours 24) xyz_first ∅) as [_ Hgone].
  split.
  - apply Hkeep. by vm_compute.
  - apply Hgone. by vm_compute.
Defined.

(** ** The scheduled job when nothing is scored *)

(** X7: the scheduled job touches the table only behind the key: with a
    key other than [SCHEDULE_KEY], and with any key when [SCHEDULE_KEY] is
    not set, it answers 403 and the table is as it was.  With the key,
    when the discovery feed fails, it answers 500 after the eviction has
    run: the table is the evicted one.  With the key and a batch without
    an admitted item, it reports 0 processed tokens, the table is the
    evicted one and the scoring collaborator has no part in the result. *)
Theorem run_scheduled_job_without_scoring (R : Type)
    (fetch_and_analyze : string → gmap string row → res R * gmap string row)
    (key : string) (SCHEDULE_KEY : option string) (t_delete t_store : Z)
    (db : gmap string row) :
  (Some key ≠ SCHEDULE_KEY →
   ∀ feed : res (list NewPairsTracker.item),
     WomMain.run_scheduled_job R fetch_and_analyze key SCHEDULE_KEY
       t_delete t_store feed db
     = (Raise (HTTPException 403 "Forbidden"), db))
  ∧ (∀ feed : res (list NewPairsTracker.item),
       WomMain.run_scheduled_job R fetch_and_analyze key None
         t_delete t_store feed db
       = (Raise (HTTPException 403 "Forbidden"), db))
  ∧ (∀ e : exn,
       WomMain.run_scheduled_job R fetch_and_analyze key (Some key)
         t_delete t_store (Raise e) db
       = (Raise (HTTPException 500 "Scheduled job failed."),
          WomMain.delete_old_tokens t_delete db))
  ∧ (∀ items : list NewPairsTracker.item,
       Forall (fun it =>
                 NewPairsTracker.admitted (NewPairsTracker.item_age it)
                   (NewPairsTracker.item_makerCount it) = false) items →
       WomMain.run_scheduled_job R fetch_and_analyze key (Some key)
         t_delete t_store (Ok items) db
       = (Ok {| WomMain.message := "Job completed";
                WomMain.processed_tokens := 0 |},
          WomMain.delete_old_tokens t_delete db)).
Proof.
  unfold WomMain.run_scheduled_job. split; [|split; [|split]].
  - intros Hkey feed. by rewrite decide_False.
  - intros feed. by rewrite decide_False.
  - intros e. by rewrite decide_True.
  - intros items Hall. rewrite decide_True by done.
    unfold NewPairsTracker.fetch_tokens.
    rewrite get_filtered_pairs_first_seen_wins.
    assert (Batch.admitted_candidates items = []) as ->; [|done].
    induction Hall as [|it items Hit _ IH]; simpl; [done|].
    by rewrite Hit.
Qed.

Lemma run_scheduled_job_without_scoring_witness :
  WomMain.run_scheduled_job string scoring_ok "guess" (Some "k") 0 0
    (Ok [item_aaa; item_bbb]) db_scored
  = (Raise (HTTPException 403 "Forbidden"), db_scored).
Proof.
  destruct (run_scheduled_job_without_scoring string scoring_ok "guess"
              (Some "k") 0 0 db_scored) as [H _].
  apply H. by vm_compute.
Defined.

(** ** Scoring the posts of a cashtag *)

Section Posts.
Local Open Scope Q_scope.

Variable probs : string → Q * Q * Q.
Variable preprocess_tweet : string → string.
Variable is_relevant_tweet : string → bool.

Local Abbreviation score_items :=
  (TwitterAnalysis.score_items probs preprocess_tweet is_relevant_tweet).
Local Abbreviation qualifying :=
  (qualifying_texts preprocess_tweet is_relevant_tweet).

(** The loop scores the qualifying texts, in order, and nothing else. *)
Lemma score_items_qualifying (items : list TwitterAnalysis.tweet)
    (acc scores : list Q) :
  score_items items acc = Ok scores
  ↔ ∃ scores', scores = (acc ++ scores')%list
               ∧ Forall2 (fun t s =>
                            TwitterAnalysis.calculate_bullishness probs t = Ok s)
                         (qualifying items) scores'.
Proof.
  revert acc. induction items as [|item rest IH]; intros acc; simpl.
  - split.
    + intros [= <-]. exists []. by rewrite app_nil_r.
    + intros (scores' & -> & ->%Forall2_nil_inv_l). by rewrite app_nil_r.
  - destruct (is_relevant_tweet _) eqn:Hrel; simpl; [|apply IH].
    destruct (_ <? 150)%Z eqn:Hfol; simpl; [apply IH|].
    destruct (TwitterAnalysis.calculate_bullishness probs _) as [v|e] eqn:Hv;
      simpl.
    + rewrite IH. split.
      * intros (scores' & -> & Hall). exists (v :: scores').
        split; [by rewrite <- app_assoc | by constructor].
      * intros (scores' & -> & Hall).
        apply Forall2_cons_inv_l in Hall as (v' & rest' & Hv' & Hall & ->).
        assert (v' = v) as -> by congruence.
        exists rest'. split; [by rewrite <- app_assoc | done].
    + split; [done|].
      intros (scores' & _ & Hall).
      apply Forall2_cons_inv_l in Hall as (v' & rest' & Hv' & _).
      congruence.
Qed.

Lemma qualifying_none (items : list TwitterAnalysis.tweet) :
  Forall (fun item =>
            (TwitterAnalysis.userFollowersCount item < 150)%Z
            ∨ is_relevant_tweet
                (preprocess_tweet (py_strip (TwitterAnalysis.text item)))
              = false) items →
  qualifying items = [].
Proof.
  induction 1 as [|item rest [Hfol|Hrel] _ IH]; simpl; [done|..].
  - apply Z.ltb_lt in Hfol. rewrite Hfol, andb_false_r. apply IH.
  - rewrite Hrel. apply IH.
Qed.


End Posts.

Section Means.
Local Open Scope Q_scope.



Lemma foldr_Qplus_replicate (n : nat) (v : Q) :
  foldr Qplus 0 (replicate n v) == inject_Z (Z.of_nat n) * v.
Proof.
  induction n as [|n IH].
  - simpl. change (inject_Z 0) with 0. ring.
  - cbn [replicate foldr]. rewrite IH, Nat2Z.inj_succ, <- Z.add_1_r.
    rewrite inject_Z_plus. change (inject_Z 1) with 1. ring.
Qed.

(** Rounding a rounded value changes nothing. *)
Lemma py_round2_idempotent (x : Q) : py_round2 (py_round2 x) = py_round2 x.
Proof.
  assert (round_half_even (py_round2 x * 100) = round_half_even (x * 100))
    as Heq.
  { rewrite <- (round_half_even_Z (round_half_even (x * 100))).
    apply round_half_even_comp. rewrite py_round2_cents. field. }
  unfold py_round2 at 1. by rewrite Heq.
Qed.

End Means.

Section Averages.
Local Open Scope Q_scope.


Lemma average_of_replicate (n : nat) (x : Q) :
  TwitterAnalysis.average_of (replicate (S n) (py_round2 x))
  = TwitterAnalysis.Average (py_round2 x).
Proof.
  set (v := py_round2 x).
  change (replicate (S n) v) with (v :: replicate n v).
  unfold TwitterAnalysis.average_of. f_equal.
  transitivity (py_round2 v); [|apply py_round2_idempotent].
  apply py_round2_comp.
  rewrite py_sum_foldr. cbn [foldr length].
  rewrite foldr_Qplus_replicate, length_replicate.
  rewrite Nat2Z.inj_succ, <- Z.add_1_r, inject_Z_plus.
  change (inject_Z 1) with 1.
  assert (0 <= inject_Z (Z.of_nat n)) as Hn.
  { change 0 with (inject_Z 0). rewrite <- Zle_Qle. lia. }
  field. lra.
Qed.

End Averages.

(** X8: only the posts that pass both filters are scored: the scores of a
    dataset are the bullishness values of the texts of its relevant posts
    with at least 150 followers, one each and in order; when every post
    fails a filter there is no score, whatever the classifier says, and the
    cashtag gets [None]. *)
Theorem score_items_only_qualifying
    (probs : string → Q * Q * Q) (preprocess_tweet : string → string)
    (is_relevant_tweet : string → bool)
    (items : list TwitterAnalysis.tweet) :
  (∀ scores : list Q,
     TwitterAnalysis.score_items probs preprocess_tweet is_relevant_tweet
       items [] = Ok scores
     ↔ Forall2 (fun t s =>
                  TwitterAnalysis.calculate_bullishness probs t = Ok s)
               (qualifying_texts preprocess_tweet is_relevant_tweet items)
               scores)
  ∧ (Forall (fun item =>
               TwitterAnalysis.userFollowersCount item < 150
               ∨ is_relevant_tweet
                   (preprocess_tweet (py_strip (TwitterAnalysis.text item)))
                 = false) items →
     TwitterAnalysis.score_items probs preprocess_tweet is_relevant_tweet
       items [] = Ok []
     ∧ ∀ (call_actor : string → res (list TwitterAnalysis.tweet))
         (cashtag : string),
         call_actor (TwitterAnalysis.search_term cashtag) = Ok items →
         TwitterAnalysis.analyze_cashtag probs preprocess_tweet
           is_relevant_tweet call_actor cashtag
         = {| TwitterAnalysis.Cashtag := cashtag;
              TwitterAnalysis.Bullishness := TwitterAnalysis.NoBullishness |}).
Proof.
  split.
  - intros scores. rewrite score_items_qualifying. simpl. split.
    + by intros (scores' & -> & Hall).
    + intros Hall. by exists scores.
  - intros Hnone.
    assert (TwitterAnalysis.score_items probs preprocess_tweet
              is_relevant_tweet items [] = Ok []) as Hscores.
    { apply score_items_qualifying. exists []. split; [done|].
      rewrite qualifying_none by done. constructor. }
    split; [done|]. intros call_actor cashtag Hcall.
    unfold TwitterAnalysis.analyze_cashtag. rewrite Hcall. simpl.
    by rewrite Hscores.
Qed.

Lemma score_items_only_qualifying_witness :
  TwitterAnalysis.score_items (fun _ => (9 # 10, 0, 1 # 10)%Q)
    (fun t => t) (fun _ => true)
    [ {| TwitterAnalysis.text := "to the moon";
         TwitterAnalysis.userFollowersCount := 149 |} ] []
  = Ok [].
Proof.
  destruct (score_items_only_qualifying (fun _ => (9 # 10, 0, 1 # 10)%Q)
              (fun t => t) (fun _ => true)
              [ {| TwitterAnalysis.text := "to the moon";
                   TwitterAnalysis.userFollowersCount := 149 |} ])
    as [_ H].
  apply H. constructor; [|constructor]. left. simpl. lia.
Defined.



(** X10: when all the scored posts of a cashtag have the same bullishness,
    that value is the average stored: in particular the score from a
    single post is the bullishness of that post. *)
Theorem average_of_equal_scores
    (probs : string → Q * Q * Q) (tweet_text : string) (v : Q) (n : nat) :
  TwitterAnalysis.calculate_bullishness probs tweet_text = Ok v →
  TwitterAnalysis.average_of (replicate (S n) v) = TwitterAnalysis.Average v.
Proof.
  unfold TwitterAnalysis.calculate_bullishness.
  destruct (probs tweet_text) as [[p0 p1] p2].
  destruct (Qeq_bool _ 0); [done|].
  intros [= <-]. apply average_of_replicate.
Qed.

Lemma average_of_equal_scores_witness :
  TwitterAnalysis.average_of [3 # 4; 3 # 4]%Q
  = TwitterAnalysis.Average (3 # 4).
Proof.
  apply (average_of_equal_scores (fun _ => (6 # 10, 2 # 10, 2 # 10)%Q)
           "gm" (3 # 4) 1).
  by vm_compute.
Defined.

(** ** Reading the table *)

(** X11: the listing of [src/wom/main.py] has exactly one entry per row of
    the table, under distinct symbols, each with the columns of its row;
    [get_tokens_details] answers with the message exactly when the table is
    empty; and a token just stored (in a call whose tokens have distinct
    symbols) is listed with the stored values and with neither a score nor
    a tweet count. *)
Theorem fetch_tokens_from_db_lists_table (db : gmap string row) :
  (∀ d : WomMain.token_details,
     d ∈ WomMain.fetch_tokens_from_db db
     ↔ ∃ (s : string) (r : row),
         db !! s = Some r ∧ d = WomMain.token_details_of_row s r)
  ∧ length (WomMain.fetch_tokens_from_db db) = size db
  ∧ NoDup (WomMain.Token <$> WomMain.fetch_tokens_from_db db)
  ∧ (WomMain.get_tokens_details db = WomMain.NoTokensAvailable ↔ db = ∅)
  ∧ (∀ (now : Z) (tokens : list NewPairsTracker.token)
       (tok : NewPairsTracker.token),
       NoDup (NewPairsTracker.token_symbol <$> tokens) →
       tok ∈ tokens →
       WomMain.token_details_of_row (NewPairsTracker.token_symbol tok)
         (NewPairsTracker.inserted_row now tok)
       ∈ WomMain.fetch_tokens_from_db
           (NewPairsTracker.store_tokens now tokens db)).
Proof.
  assert (∀ (m : gmap string row) (d : WomMain.token_details),
            d ∈ WomMain.fetch_tokens_from_db m
            ↔ ∃ (s : string) (r : row),
                m !! s = Some r ∧ d = WomMain.token_details_of_row s r)
    as Helem.
  { intros m d. unfold WomMain.fetch_tokens_from_db.
    rewrite list_elem_of_fmap. split.
    - intros ([s r] & -> & Hin%elem_of_map_to_list). by exists s, r.
    - intros (s & r & Hs & ->). exists (s, r).
      split; [done | by apply elem_of_map_to_list]. }
  split; [apply Helem|]. split; [|split; [|split]].
  - unfold WomMain.fetch_tokens_from_db.
    by rewrite length_fmap, length_map_to_list.
  - unfold WomMain.fetch_tokens_from_db. rewrite <- list_fmap_compose.
    apply (NoDup_fst_map_to_list db).
  - unfold WomMain.get_tokens_details, WomMain.fetch_tokens_from_db.
    rewrite <- (map_to_list_empty_iff db).
    destruct (map_to_list db); simpl; split; done.
  - intros now tokens tok Hnd Hin. apply Helem.
    exists (NewPairsTracker.token_symbol tok),
      (NewPairsTracker.inserted_row now tok).
    split; [|done].
    destruct (store_tokens_lookup_some now tokens db tok Hin)
      as (tok' & Hin' & Hsym & ->).
    by rewrite (NoDup_symbols_eq tokens tok' tok).
Qed.

Lemma fetch_tokens_from_db_lists_table_witness :
  WomMain.token_details_of_row "$XYZ"
    (NewPairsTracker.inserted_row (hours 1) xyz_later)
  ∈ WomMain.fetch_tokens_from_db
      (NewPairsTracker.store_tokens (hours 1) [xyz_later] db_scored).
Proof.
  destruct (fetch_tokens_from_db_lists_table db_scored)
    as (_ & _ & _ & _ & H).
  apply (H (hours 1) [xyz_later] xyz_later).
  - apply NoDup_singleton.
  - by constructor.
Defined.

(** X12: [fetch_tokens_from_db] of [src/wom/new_pairs_tracker.py] returns
    nothing for an empty list of tokens; otherwise every dictionary it
    returns is a row of the table whose address is the address of one of
    the tokens; and the tokens just stored (with distinct symbols) are all
    read back, each with the values stored and its dex URL. *)
Theorem fetch_tokens_from_db_reads_back
    (tokens : list NewPairsTracker.token) (db : gmap string row) :
  NewPairsTracker.fetch_tokens_from_db [] db = []
  ∧ (∀ d : NewPairsTracker.db_token,
       d ∈ NewPairsTracker.fetch_tokens_from_db tokens db →
       NewPairsTracker.db_address d ∈ NewPairsTracker.address <$> tokens
       ∧ ∃ r : row,
           db !! NewPairsTracker.db_token_symbol d = Some r
           ∧ d = NewPairsTracker.db_token_of_row
                   (NewPairsTracker.db_token_symbol d) r)
  ∧ (∀ (now : Z) (tok : NewPairsTracker.token),
       NoDup (NewPairsTracker.token_symbol <$> tokens) →
       tok ∈ tokens →
       db_token_of_token tok
       ∈ NewPairsTracker.fetch_tokens_from_db tokens
           (NewPairsTracker.store_tokens now tokens db)).
Proof.
  split; [done|]. split.
  - intros d. unfold NewPairsTracker.fetch_tokens_from_db.
    destruct tokens as [|t0 tokens]; [by intros ?%elem_of_nil|].
    intros ([s r] & -> & [Haddr Hin%elem_of_map_to_list]%list_elem_of_filter)
             %list_elem_of_fmap.
    simpl in *. split; [done|]. by exists r.
  - intros now tok Hnd Hin.
    unfold NewPairsTracker.fetch_tokens_from_db.
    destruct tokens as [|t0 tokens]; [by apply elem_of_nil in Hin|].
    apply list_elem_of_fmap.
    exists (NewPairsTracker.token_symbol tok,
            NewPairsTracker.inserted_row now tok).
    split; [done|]. apply list_elem_of_filter. split.
    + exact (list_elem_of_fmap_2 NewPairsTracker.address _ _ Hin).
    + apply elem_of_map_to_list.
      destruct (store_tokens_lookup_some now (t0 :: tokens) db tok Hin)
        as (tok' & Hin' & Hsym & ->).
      by rewrite (NoDup_symbols_eq (t0 :: tokens) tok' tok).
Qed.

Lemma fetch_tokens_from_db_reads_back_witness :
  db_token_of_token xyz_later
  ∈ NewPairsTracker.fetch_tokens_from_db [xyz_later]
      (NewPairsTracker.store_tokens (hours 1) [xyz_later] db_scored).
Proof.
  destruct (fetch_tokens_from_db_reads_back [xyz_later] db_scored)
    as (_ & _ & H).
  apply (H (hours 1) xyz_later).
  - apply NoDup_singleton.
  - by constructor.
Defined.

(** ** src/crypto_lens/twitter_sentiment.py *)

(** X13: [get_new_pairs] returns cashtags without duplicates: exactly the
    strings [$] followed by a non-empty symbol of a fetched token; tokens
    without a symbol, or with an empty one, give nothing. *)
Theorem get_new_pairs_cashtags (tokens : list (option string)) :
  NoDup (TwitterSentiment.get_new_pairs tokens)
  ∧ (∀ cashtag : string,
       cashtag ∈ TwitterSentiment.get_new_pairs tokens
       ↔ ∃ sym : string,
           Some sym ∈ tokens ∧ sym ≠ "" ∧ cashtag = "$" +:+ sym)
  ∧ (Forall (fun token_symbol =>
               token_symbol = None ∨ token_symbol = Some "") tokens →
     TwitterSentiment.get_new_pairs tokens = []).
Proof.
  assert (∀ cashtag : string,
            cashtag ∈ TwitterSentiment.get_new_pairs tokens
            ↔ ∃ sym : string,
                Some sym ∈ tokens ∧ sym ≠ "" ∧ cashtag = "$" +:+ sym)
    as Helem.
  { intros cashtag. unfold TwitterSentiment.get_new_pairs.
    destruct tokens as [|t0 tokens].
    { split; [by intros ?%elem_of_nil|].
      by intros (sym & ?%elem_of_nil & _). }
    rewrite elem_of_elements, elem_of_list_to_set, list_elem_of_omap. split.
    - intros ([sym|] & Hin & Hsome); [|done].
      destruct (decide (sym = "")); [done|].
      injection Hsome as <-. by exists sym.
    - intros (sym & Hin & Hne & ->). exists (Some sym).
      split; [done|]. by rewrite decide_False. }
  split; [|split; [apply Helem|]].
  - unfold TwitterSentiment.get_new_pairs.
    destruct tokens; [constructor | apply NoDup_elements].
  - intros Hall. apply elem_of_nil_inv. intros c Hc.
    apply Helem in Hc as (sym & Hin & Hne & _).
    rewrite Forall_forall in Hall.
    destruct (Hall _ Hin) as [?|[= ->]]; done.
Qed.

Lemma get_new_pairs_cashtags_witness :
  TwitterSentiment.get_new_pairs [None; Some ""; None] = [].
Proof.
  destruct (get_new_pairs_cashtags [None; Some ""; None]) as (_ & _ & H).
  apply H. repeat constructor; by right.
Defined.

Section SentimentLoop.

Variable call_actor : string → res (list string).
Variable polarity : string → Q.

(** After the loop a cashtag of the list holds its own value, and the
    other keys are as before. *)
Lemma sentiment_analyze_loop_lookup (cashtags : list string)
    (overall_sentiments : gmap string TwitterSentiment.sentiment)
    (cashtag : string) :
  TwitterSentiment.analyze_loop call_actor polarity cashtags
    overall_sentiments !! cashtag
  = if decide (cashtag ∈ cashtags)
    then Some (TwitterSentiment.analyze_cashtag call_actor polarity cashtag)
    else overall_sentiments !! cashtag.
Proof.
  revert overall_sentiments.
  induction cashtags as [|c rest IH]; intros m;
    cbn [TwitterSentiment.analyze_loop].
  - by rewrite decide_False by apply not_elem_of_nil.
  - rewrite IH. destruct (decide (cashtag ∈ rest)) as [Hin|Hnin].
    + by rewrite decide_True by by right.
    + destruct (decide (c = cashtag)) as [->|Hne].
      * rewrite lookup_insert_eq. by rewrite decide_True by by left.
      * rewrite lookup_insert_ne by done.
        rewrite decide_False; [done|].
        intros [?|?]%elem_of_cons; congruence.
Qed.

End SentimentLoop.

(** X14: [analyze_cashtags] of [twitter_sentiment] answers for every
    cashtag it is given and for no other: the keys of the result are the
    cashtags of the list, each holding the value computed for it alone; a
    cashtag whose scraper call raises holds the error value, and this does
    not keep the other cashtags from their values. *)
Theorem sentiment_analyze_cashtags_keys
    (call_actor : string → res (list string)) (polarity : string → Q)
    (cashtags : list string) :
  dom (TwitterSentiment.analyze_cashtags call_actor polarity cashtags)
  = list_to_set cashtags
  ∧ (∀ cashtag : string,
       cashtag ∈ cashtags →
       TwitterSentiment.analyze_cashtags call_actor polarity cashtags
         !! cashtag
       = Some (TwitterSentiment.analyze_cashtag call_actor polarity cashtag))
  ∧ (∀ (cashtag : string) (e : exn),
       cashtag ∈ cashtags →
       call_actor (TwitterSentiment.search_term cashtag) = Raise e →
       TwitterSentiment.analyze_cashtags call_actor polarity cashtags
         !! cashtag
       = Some TwitterSentiment.ErrorFetchingTweets).
Proof.
  assert (∀ cashtag : string,
            cashtag ∈ cashtags →
            TwitterSentiment.analyze_cashtags call_actor polarity cashtags
              !! cashtag
            = Some (TwitterSentiment.analyze_cashtag call_actor polarity
                      cashtag)) as Hlook.
  { intros cashtag Hin. unfold TwitterSentiment.analyze_cashtags.
    rewrite sentiment_analyze_loop_lookup. by rewrite decide_True. }
  split; [|split; [done|]].
  - apply set_eq. intros c.
    rewrite elem_of_dom, elem_of_list_to_set.
    unfold TwitterSentiment.analyze_cashtags.
    rewrite sentiment_analyze_loop_lookup.
    destruct (decide (c ∈ cashtags)) as [Hin|Hnin].
    + split; [done | by eexists].
    + rewrite lookup_empty. split; [by intros [? ?] | done].
  - intros cashtag e Hin Hcall. rewrite Hlook by done.
    unfold TwitterSentiment.analyze_cashtag. by rewrite Hcall.
Qed.

Lemma sentiment_analyze_cashtags_keys_witness :
  TwitterSentiment.analyze_cashtags
    (fun term => if decide (term = "$AAA")
                 then Raise (RuntimeError "post feed error")
                 else Ok ["gm"; "  "])
    (fun _ => 1 # 2)%Q ["$AAA"; "$BBB"] !! "$AAA"
  = Some TwitterSentiment.ErrorFetchingTweets.
Proof.
  destruct (sentiment_analyze_cashtags_keys
              (fun term => if decide (term = "$AAA")
                           then Raise (RuntimeError "post feed error")
                           else Ok ["gm"; "  "])
              (fun _ => 1 # 2)%Q ["$AAA"; "$BBB"]) as (_ & _ & H).
  apply (H "$AAA" (RuntimeError "post feed error")).
  - by constructor.
  - by vm_compute.
Defined.

Section Signs.
Local Open Scope Q_scope.

(** Dividing by a positive number keeps the sign. *)
Lemma Qdiv_sign (x n : Q) :
  0 < n → (0 < x / n ↔ 0 < x) ∧ (x / n < 0 ↔ x < 0).
Proof.
  intros Hn. split; split.
  - intros H. destruct (Qlt_le_dec 0 x) as [|Hle]; [done|].
    assert (x / n <= 0) by (apply Qle_shift_div_r; [done | lra]). lra.
  - intros H. apply Qlt_shift_div_l; [done | lra].
  - intros H. destruct (Qlt_le_dec x 0) as [|Hle]; [done|].
    assert (0 <= x / n) by (apply Qle_shift_div_l; [done | lra]). lra.
  - intros H. apply Qlt_shift_div_r; [done | lra].
Qed.

End Signs.

(** X15: the label of a cashtag with tweets depends on the sign of the sum
    of the polarities only: positive sum, [Positive]; negative sum,
    [Negative]; zero sum, [Neutral]; the two other values never label a
    non-empty list of tweets. *)
Theorem sentiment_of_sign (score : Q) (scores : list Q) :
  let total := foldr Qplus 0%Q (score :: scores) in
  (TwitterSentiment.sentiment_of (score :: scores) = TwitterSentiment.Positive
   ↔ (0 < total)%Q)
  ∧ (TwitterSentiment.sentiment_of (score :: scores)
     = TwitterSentiment.Negative
     ↔ (total < 0)%Q)
  ∧ (TwitterSentiment.sentiment_of (score :: scores)
     = TwitterSentiment.Neutral
     ↔ (total == 0)%Q)
  ∧ TwitterSentiment.sentiment_of (score :: scores)
    ≠ TwitterSentiment.NoTweetsFound
  ∧ TwitterSentiment.sentiment_of (score :: scores)
    ≠ TwitterSentiment.ErrorFetchingTweets.
Proof.
  intros total. unfold TwitterSentiment.sentiment_of.
  set (n := inject_Z (Z.of_nat (length (score :: scores)))).
  assert (0 < n)%Q as Hn.
  { unfold n. change 0%Q with (inject_Z 0). rewrite <- Zlt_Qlt. simpl. lia. }
  assert (TwitterSentiment.py_sum (score :: scores) == total)%Q as Hsum.
  { unfold TwitterSentiment.py_sum. rewrite foldl_Qplus. unfold total. ring. }
  destruct (Qdiv_sign (TwitterSentiment.py_sum (score :: scores)) n Hn)
    as [Hpos Hneg].
  rewrite Hsum in Hpos at 2. rewrite Hsum in Hneg at 2.
  destruct (Qlt_le_dec 0 _) as [Hp|Hnp].
  - apply Hpos in Hp. repeat split; try done; intros; lra.
  - destruct (Qlt_le_dec _ 0) as [Hm|Hnm].
    + apply Hneg in Hm. repeat split; try done; intros; lra.
    + assert (¬ (0 < total)%Q) by (rewrite <- Hpos; lra).
      assert (¬ (total < 0)%Q) by (rewrite <- Hneg; lra).
      repeat split; try done; intros; lra.
Qed.

(** ** The scheduled job when a scoring raises *)

Section Abort.

Variable R : Type.
Variable fetch_and_analyze : string → gmap string row → res R * gmap string row.

(** The loop stops at the first token whose scoring raises: the tokens
    after it have no part in the outcome. *)
Lemma score_loop_raise (pre post : list NewPairsTracker.token)
    (t : NewPairsTracker.token) (results results1 : list R)
    (db db1 db2 : gmap string row) (e : exn) :
  WomMain.score_loop R fetch_and_analyze pre results db = (Ok results1, db1) →
  fetch_and_analyze (NewPairsTracker.token_symbol t) db1 = (Raise e, db2) →
  WomMain.score_loop R fetch_and_analyze (pre ++ t :: post) results db
  = (Raise e, db2).
Proof.
  revert results db.
  induction pre as [|t0 pre IH]; intros results db; simpl.
  - intros [= -> ->] Ht. by rewrite Ht.
  - destruct (fetch_and_analyze _ db) as [[r|e0] db0]; [|done].
    apply IH.
Qed.

End Abort.

(** X16: the scheduled job stops at the first token whose scoring raises:
    it answers 500, the table is the one that scoring left, and the tokens
    that come after it in the batch are not scored (they have no part in
    the outcome), although they have been stored. *)
Theorem run_scheduled_job_stops_at_raise (R : Type)
    (fetch_and_analyze : string → gmap string row → res R * gmap string row)
    (key : string) (t_delete t_store : Z)
    (items : list NewPairsTracker.item) (db db1 db2 : gmap string row)
    (pre post : list NewPairsTracker.token) (t : NewPairsTracker.token)
    (results : list R) (e : exn) :
  NewPairsTracker.get_filtered_pairs (Ok items) = Ok (pre ++ t :: post) →
  WomMain.score_loop R fetch_and_analyze pre []
    (NewPairsTracker.store_tokens t_store (pre ++ t :: post)
       (WomMain.delete_old_tokens t_delete db))
  = (Ok results, db1) →
  fetch_and_analyze (NewPairsTracker.token_symbol t) db1 = (Raise e, db2) →
  WomMain.run_scheduled_job R fetch_and_analyze key (Some key)
    t_delete t_store (Ok items) db
  = (Raise (HTTPException 500 "Scheduled job failed."), db2).
Proof.
  intros Hbatch Hpre Ht.
  unfold WomMain.run_scheduled_job, NewPairsTracker.fetch_tokens.
  rewrite decide_True by done. rewrite Hbatch.
  assert (match pre ++ t :: post with
          | [] => WomMain.delete_old_tokens t_delete db
          | _ :: _ =>
              NewPairsTracker.store_tokens t_store (pre ++ t :: post)
                (WomMain.delete_old_tokens t_delete db)
          end
          = NewPairsTracker.store_tokens t_store (pre ++ t :: post)
              (WomMain.delete_old_tokens t_delete db)) as ->
    by by destruct pre.
  by rewrite (score_loop_raise R fetch_and_analyze pre post t [] results
                _ db1 db2 e Hpre Ht).
Qed.

Lemma run_scheduled_job_stops_at_raise_witness :
  (WomMain.run_scheduled_job string scoring_fails_on_aaa "k" (Some "k")
     0 0 (Ok [item_bbb; item_aaa; item_bbb]) ∅).1
  = Raise (HTTPException 500 "Scheduled job failed.").
Proof.
  set (tokens :=
         [NewPairsTracker.token_of_item "$BBB" item_bbb;
          NewPairsTracker.token_of_item "$AAA" item_aaa]).
  set (stored := NewPairsTracker.store_tokens 0 tokens
                   (WomMain.delete_old_tokens 0 ∅)).
  rewrite (run_scheduled_job_stops_at_raise string scoring_fails_on_aaa "k"
             0 0 [item_bbb; item_aaa; item_bbb] ∅
             (scoring_ok "$BBB" stored).2 (scoring_ok "$BBB" stored).2
             [NewPairsTracker.token_of_item "$BBB" item_bbb] []
             (NewPairsTracker.token_of_item "$AAA" item_aaa)
             ["$BBB"] (RuntimeError "post feed error")).
  - reflexivity.
  - by vm_compute.
  - by vm_compute.
  - by vm_compute.
Defined.

(** ** Blank tweets *)

Lemma py_strip_all_space (s : string) : all_space s = true → py_strip s = "".
Proof.
  intros Hs. unfold py_strip.
  assert (py_lstrip s = "") as ->; [|done].
  induction s as [|c s IH]; simpl in *; [done|].
  apply andb_prop in Hs as [Hc Hs]. rewrite Hc. by apply IH.
Qed.

(** X17: tweets whose text is empty or made of whitespace only do not
    count: a cashtag all of whose tweets are such gets the value for no
    tweets, as a cashtag without any tweet does. *)
Theorem sentiment_blank_tweets_not_counted
    (call_actor : string → res (list string)) (polarity : string → Q)
    (cashtag : string) (texts : list string) :
  call_actor (TwitterSentiment.search_term cashtag) = Ok texts →
  Forall (fun item_text => all_space item_text = true) texts →
  TwitterSentiment.analyze_cashtag call_actor polarity cashtag
  = TwitterSentiment.NoTweetsFound.
Proof.
  intros Hcall Hall. unfold TwitterSentiment.analyze_cashtag. rewrite Hcall.
  clear Hcall.
  assert (TwitterSentiment.polarities polarity texts [] = []) as ->; [|done].
  induction Hall as [|item_text rest Hblank _ IH];
    cbn [TwitterSentiment.polarities]; [done|].
  rewrite (py_strip_all_space _ Hblank).
  rewrite decide_True by done. exact IH.
Qed.

Lemma sentiment_blank_tweets_not_counted_witness :
  TwitterSentiment.analyze_cashtag (fun _ => Ok [""; "   "])
    (fun _ => 1 # 2)%Q "$XYZ"
  = TwitterSentiment.NoTweetsFound.
Proof.
  apply (sentiment_blank_tweets_not_counted (fun _ => Ok [""; "   "])
           (fun _ => 1 # 2)%Q "$XYZ" [""; "   "]).
  - reflexivity.
  - repeat constructor.
Defined.

(** ** Repeated items in a batch *)

Section Repeats.
Import NewPairsTracker.

Lemma first_seen_wins_app (seen : gset string) (l1 l2 : list token) :
  Batch.first_seen_wins seen (l1 ++ l2)
  = Batch.first_seen_wins seen l1
    ++ Batch.first_seen_wins (seen ∪ list_to_set (token_symbol <$> l1)) l2.
Proof.
  revert seen. induction l1 as [|t l1 IH]; intros seen; simpl.
  - by rewrite union_empty_r_L.
  - destruct (decide (token_symbol t ∈ seen)) as [Hin|Hnin].
    + rewrite IH. do 2 f_equal.
      rewrite (assoc_L (∪)). f_equal.
      apply set_eq. intros s.
      rewrite elem_of_union, elem_of_singleton.
      split; [by left | by intros [?| ->]].
    + rewrite IH. simpl. do 3 f_equal.
      rewrite (assoc_L (∪)). f_equal. apply (comm_L (∪)).
Qed.

Lemma first_seen_wins_all_seen (seen : gset string) (l : list token) :
  (∀ t, t ∈ l → token_symbol t ∈ seen) →
  Batch.first_seen_wins seen l = [].
Proof.
  induction l as [|t l IH]; intros Hall; simpl; [done|].
  rewrite decide_True by (apply Hall; by left).
  apply IH. intros t' Ht'. apply Hall. by right.
Qed.

Lemma admitted_candidates_app (l1 l2 : list item) :
  Batch.admitted_candidates (l1 ++ l2)
  = Batch.admitted_candidates l1 ++ Batch.admitted_candidates l2.
Proof.
  induction l1 as [|it l1 IH]; simpl; [done|].
  destruct (admitted _ _); simpl; by rewrite IH.
Qed.

End Repeats.

(** X18: items that come later in the feed under a symbol already admitted
    change nothing: the tokens of the batch with them are the tokens of the
    batch without them; in particular a feed that lists its items twice
    yields the tokens of the feed that lists them once. *)
Theorem get_filtered_pairs_ignores_repeats
    (items extra : list NewPairsTracker.item) :
  ((∀ t : NewPairsTracker.token,
      t ∈ Batch.admitted_candidates extra →
      NewPairsTracker.token_symbol t
      ∈ NewPairsTracker.token_symbol <$> Batch.admitted_candidates items) →
   NewPairsTracker.get_filtered_pairs (Ok (items ++ extra))
   = NewPairsTracker.get_filtered_pairs (Ok items))
  ∧ NewPairsTracker.get_filtered_pairs (Ok (items ++ items))
    = NewPairsTracker.get_filtered_pairs (Ok items).
Proof.
  assert (∀ more : list NewPairsTracker.item,
            (∀ t : NewPairsTracker.token,
               t ∈ Batch.admitted_candidates more →
               NewPairsTracker.token_symbol t
               ∈ NewPairsTracker.token_symbol
                   <$> Batch.admitted_candidates items) →
            NewPairsTracker.get_filtered_pairs (Ok (items ++ more))
            = NewPairsTracker.get_filtered_pairs (Ok items)) as Hgen.
  { intros more Hseen.
    rewrite !get_filtered_pairs_first_seen_wins.
    rewrite admitted_candidates_app, first_seen_wins_app.
    rewrite (first_seen_wins_all_seen _ (Batch.admitted_candidates more)).
    - by rewrite app_nil_r.
    - intros t Ht. apply elem_of_union. right.
      apply elem_of_list_to_set. by apply Hseen. }
  split; [apply Hgen|].
  apply Hgen. intros t Ht. by apply list_elem_of_fmap_2.
Qed.

Lemma get_filtered_pairs_ignores_repeats_witness :
  NewPairsTracker.get_filtered_pairs (Ok ([item_aaa; item_bbb] ++ [item_aaa]))
  = NewPairsTracker.get_filtered_pairs (Ok [item_aaa; item_bbb]).
Proof.
  destruct (get_filtered_pairs_ignores_repeats [item_aaa; item_bbb] [item_aaa])
    as [H _].
  apply H. intros t Ht.
  apply (bool_decide_unpack _).
  vm_compute in Ht. apply list_elem_of_singleton in Ht. subst t.
  by vm_compute.
Defined.
